(** * Padelfinder: the tournament search proxy of [api/index.py]

    A shallow embedding of the search endpoint of the Padelfinder API
    ([search_tenup], [_perform_search], [fetch_web_ajax],
    [get_form_state], the credential loaders and the in-process cache)
    together with the properties its specification states.

    Conventions of the embedding:
    - Python values that come out of [json] are modelled by [json];
      the operations on them ([.get], iteration, truth value, hashing,
      comparison with [len]) raise where Python raises.
    - Exceptions are values of [exn]; the code only ever distinguishes
      FastAPI's [HTTPException] from the other subclasses of
      [Exception], and reads [str(e)].
    - Effects (network, headless browser, files, cache) are threaded
      through a state-and-exception monad; every outbound call is also
      appended to a trace, so that "exactly once" can be stated.
    - Strings are sequences of characters with codes below 256. *)

From Stdlib Require Import ZArith QArith Lqa String Ascii List SpecFloat.
From stdpp Require Import gmap strings list pretty.

Set Warnings "-register-all".
Local Open Scope string_scope.
Local Open Scope Z_scope.
Local Open Scope list_scope.

(** ** Python strings *)

Module PyStr.

(** [needle in hay] *)
Fixpoint contains (needle hay : string) : bool :=
  String.prefix needle hay ||
  match hay with
  | EmptyString => false
  | String _ hay' => contains needle hay'
  end.

(** the text after [p] when [s] starts with [p] *)
Fixpoint strip_prefix (p s : string) : option string :=
  match p, s with
  | EmptyString, _ => Some s
  | String a p', String b s' =>
      if Ascii.eqb a b then strip_prefix p' s' else None
  | String _ _, EmptyString => None
  end.

(** the longest prefix free of [c], and what follows it *)
Fixpoint span_not (c : ascii) (s : string) : string * string :=
  match s with
  | EmptyString => (EmptyString, EmptyString)
  | String a s' =>
      if Ascii.eqb a c then (EmptyString, s)
      else let '(run, rest) := span_not c s' in (String a run, rest)
  end.

Fixpoint drop (n : nat) (s : string) : string :=
  match n, s with
  | O, _ => s
  | S n', String _ s' => drop n' s'
  | S _, EmptyString => EmptyString
  end.

Fixpoint take (n : nat) (s : string) : string :=
  match n, s with
  | O, _ => EmptyString
  | S n', String a s' => String a (take n' s')
  | S _, EmptyString => EmptyString
  end.

(** [re.search]: the leftmost position at which [at_pos] matches *)
Fixpoint search {A} (at_pos : string -> option A) (s : string) : option A :=
  match at_pos s with
  | Some r => Some r
  | None =>
      match s with
      | EmptyString => None
      | String _ s' => search at_pos s'
      end
  end.

(** [str.isspace] on one character (codes below 256) *)
Definition is_space (a : ascii) : bool :=
  let n := nat_of_ascii a in
  ((9 <=? n) && (n <=? 13) || (28 <=? n) && (n <=? 32) ||
   (n =? 133) || (n =? 160))%nat.

Fixpoint lstrip (s : string) : string :=
  match s with
  | String a s' => if is_space a then lstrip s' else s
  | EmptyString => EmptyString
  end.

Fixpoint rstrip (s : string) : string :=
  match s with
  | EmptyString => EmptyString
  | String a s' =>
      match rstrip s' with
      | EmptyString => if is_space a then EmptyString else String a EmptyString
      | r => String a r
      end
  end.

(** [s.strip()] *)
Definition strip (s : string) : string := rstrip (lstrip s).

Definition lower_ascii (a : ascii) : ascii :=
  let n := nat_of_ascii a in
  if ((65 <=? n) && (n <=? 90))%nat then ascii_of_nat (n + 32) else a.

(** [s.lower().startswith(p)] for a lower-case ASCII [p]; within codes
    below 256 only an ASCII capital lowers to an ASCII letter *)
Fixpoint lower_startswith (p s : string) : bool :=
  match p, s with
  | EmptyString, _ => true
  | String a p', String b s' =>
      Ascii.eqb a (lower_ascii b) && lower_startswith p' s'
  | String _ _, EmptyString => false
  end.

(** [s.split(c, 1)[1]] when [c] occurs in [s] *)
Definition after_first (c : ascii) (s : string) : string :=
  match snd (span_not c s) with
  | String _ rest => rest
  | EmptyString => EmptyString
  end.

(** line boundaries of [str.splitlines] (codes below 256) *)
Definition is_linebreak (a : ascii) : bool :=
  let n := nat_of_ascii a in
  ((10 <=? n) && (n <=? 13) || (28 <=? n) && (n <=? 30) || (n =? 133))%nat.

(** [s.splitlines()]: [cur] is the line being read, reversed *)
Fixpoint splitlines_aux (s : string) (cur : list ascii) : list string :=
  match s with
  | EmptyString =>
      match cur with
      | [] => []
      | _ => [string_of_list_ascii (rev cur)]
      end
  | String a s' =>
      if is_linebreak a then
        string_of_list_ascii (rev cur) ::
        match s' with
        | String b s'' =>
            if Ascii.eqb a "013" && Ascii.eqb b "010"
            then splitlines_aux s'' []
            else splitlines_aux s' []
        | EmptyString => []
        end
      else splitlines_aux s' (a :: cur)
  end.

Definition splitlines (s : string) : list string := splitlines_aux s [].

(** [sep.join(parts)] *)
Fixpoint join (sep : string) (parts : list string) : string :=
  match parts with
  | [] => EmptyString
  | [p] => p
  | p :: ps => p +:+ sep +:+ join sep ps
  end.

(** [bool(s)] *)
Definition nonempty (s : string) : bool :=
  match s with EmptyString => false | _ => true end.

(** every character of [s] satisfies [p] *)
Fixpoint all_chars (p : ascii -> bool) (s : string) : bool :=
  match s with
  | EmptyString => true
  | String a s' => p a && all_chars p s'
  end.

End PyStr.

(** ** Python values and exceptions *)

(** What [json.loads] and [resp.json()] return.  Numbers are integers
    here; the code never computes with a fractional one. *)
Inductive json :=
| JNull
| JBool (b : bool)
| JInt (z : Z)
| JStr (s : string)
| JList (l : list json)
| JDict (d : list (string * json)).

(** The exceptions of the program.  [HTTPException] is FastAPI's;
    [Exception msg] is any other subclass of [Exception] (RuntimeError,
    httpx's errors, TypeError, AttributeError, ...) with [str(e) = msg]. *)
Inductive exn :=
| HTTPException (status_code : Z) (detail : string)
| Exception (msg : string).

Definition RuntimeError (msg : string) : exn := Exception msg.
Definition TypeError (msg : string) : exn := Exception msg.
Definition AttributeError (msg : string) : exn := Exception msg.

(** [str(e)]; Starlette renders an HTTPException as "status: detail". *)
Definition str_exn (e : exn) : string :=
  match e with
  | HTTPException c d => pretty c +:+ ": " +:+ d
  | Exception m => m
  end.

Module Py.

(** [bool(v)] *)
Definition truthy (v : json) : bool :=
  match v with
  | JNull => false
  | JBool b => b
  | JInt z => negb (z =? 0)
  | JStr s => PyStr.nonempty s
  | JList l => match l with [] => false | _ => true end
  | JDict d => match d with [] => false | _ => true end
  end.

(** [a or b] *)
Definition or_ (a b : json) : json := if truthy a then a else b.

Fixpoint assoc (k : string) (d : list (string * json)) : option json :=
  match d with
  | [] => None
  | (k', v) :: d' => if String.eqb k k' then Some v else assoc k d'
  end.

(** [d[k] = v] on a dict: replace in place, or append *)
Fixpoint assoc_set (k : string) (v : json) (d : list (string * json))
  : list (string * json) :=
  match d with
  | [] => [(k, v)]
  | (k', v') :: d' =>
      if String.eqb k k' then (k, v) :: d' else (k', v') :: assoc_set k v d'
  end.

(** [v.get(k, default)]: only a dict has [.get] *)
Definition get_default (v : json) (k : string) (default : json) : exn + json :=
  match v with
  | JDict d => inr (match assoc k d with Some x => x | None => default end)
  | _ => inl (AttributeError "object has no attribute 'get'")
  end.

(** [v.get(k)] *)
Definition get (v : json) (k : string) : exn + json := get_default v k JNull.

(** [for x in v]: the elements visited *)
Definition iter (v : json) : exn + list json :=
  match v with
  | JList l => inr l
  | JDict d => inr (map (fun kv => JStr (fst kv)) d)
  | JStr s => inr (map (fun a => JStr (String a EmptyString)) (list_ascii_of_string s))
  | _ => inl (TypeError "object is not iterable")
  end.

(** [v == s] for a string literal [s] *)
Definition eq_str (v : json) (s : string) : bool :=
  match v with
  | JStr s' => String.eqb s' s
  | _ => false
  end.

(** The elements of a [set] of JSON scalars: strings and numbers (a
    boolean hashes and compares as 0 or 1). *)
Definition key : Type := string + Z.

(** [hash(v)], as needed by [v in seen_ids]: lists and dicts are
    unhashable.  [None] never reaches a set in this program. *)
Definition hash_key (v : json) : exn + key :=
  match v with
  | JStr s => inr (inl s)
  | JInt z => inr (inr z)
  | JBool b => inr (inr (if b then 1 else 0))
  | JNull => inr (inl EmptyString)
  | JList _ | JDict _ => inl (TypeError "unhashable type")
  end.

(** [n >= v] for an [int] [n]: defined on numbers only *)
Definition int_ge (n : Z) (v : json) : exn + bool :=
  match v with
  | JInt z => inr (z <=? n)
  | JBool b => inr ((if b then 1 else 0) <=? n)
  | _ => inl (TypeError "'>=' not supported between instances")
  end.

End Py.

(** ** The three regular expressions of [get_form_state]

    Each [re.search] is written out as the leftmost-match scan of
    [PyStr.search] over a matcher for the pattern at one position. *)

Module Re.

(** the double quote character, and a text between double quotes *)
Definition dq : string := String "034" EmptyString.
Definition quoted (s : string) : string := dq +:+ s +:+ dq.

(** The redirect pattern, as the source spells it in a raw string:
    decodeURIComponent, two backslashes, an opening parenthesis, a quote,
    the group of non-quotes, a quote, two backslashes, a closing
    parenthesis.  To the regex engine the doubled backslash is one literal
    backslash, so the outer parentheses are not escaped and delimit
    group 1.  A match is therefore the text decodeURIComponent, a
    backslash, a quote, a non-empty run free of quotes, a quote and a
    backslash; group 1 spans from the first quote to the last backslash. *)
Definition decode_redirect_at (s : string) : option string :=
  match PyStr.strip_prefix "decodeURIComponent\'" s with
  | None => None
  | Some rest =>
      let '(run, rest') := PyStr.span_not "'" rest in
      if PyStr.nonempty run then
        match PyStr.strip_prefix "'\" rest' with
        | Some _ => Some ("'" +:+ run +:+ "'\")
        | None => None
        end
      else None
  end.

(** [mredir.group(1)] *)
Definition search_decode_redirect (html : string) : option string :=
  PyStr.search decode_redirect_at html.

(** a literal, then a non-empty group free of double quotes, then a
    double quote: the group *)
Definition quoted_value_at (lit : string) (s : string) : option string :=
  match PyStr.strip_prefix lit s with
  | None => None
  | Some rest =>
      let '(run, rest') := PyStr.span_not "034" rest in
      if PyStr.nonempty run then
        match rest' with
        | String _ _ => Some run
        | EmptyString => None
        end
      else None
  end.

Definition value_lit : string := "value=" +:+ dq.

(** the greedy star over characters other than [>]: of the offsets
    [0..n] into the run, the largest at which the rest of the pattern
    matches *)
Fixpoint last_value_within (n : nat) (s : string) : option string :=
  match n with
  | O => quoted_value_at value_lit s
  | S n' =>
      match s with
      | String _ s' =>
          match last_value_within n' s' with
          | Some r => Some r
          | None => quoted_value_at value_lit s
          end
      | EmptyString => quoted_value_at value_lit s
      end
  end.

(** the form-build pattern at one position: the attribute
    name=form_build_id (quoted), any characters other than [>], then
    value= and the quoted group *)
Definition form_build_id_at (s : string) : option string :=
  match PyStr.strip_prefix ("name=" +:+ quoted "form_build_id") s with
  | None => None
  | Some rest =>
      last_value_within (String.length (fst (PyStr.span_not ">" rest))) rest
  end.

(** [m_id.group(1)] *)
Definition search_form_build_id (html : string) : option string :=
  PyStr.search form_build_id_at html.

(** [m_tk.group(1)]: the quoted text after the quoted key theme_token
    and a colon *)
Definition search_theme_token (html : string) : option string :=
  PyStr.search (quoted_value_at (quoted "theme_token" +:+ ":" +:+ dq)) html.

End Re.

(** ** The query and its cache key *)

(** The parameters of [search_tenup].  A Python [float] is an IEEE
    binary64 number: [spec_float] gives its sign, mantissa and exponent
    (the value of [S754_finite s m e] is [m * 2^e], negated when [s]). *)
Record Query := {
  lat : spec_float;
  lng : spec_float;
  rayon_km : Z;
  q : string;
  date_start : string;
  date_end : string;
  level : string;
  etype : string;
}.

(** A float that has at most four decimals: [RDec s n] is [n / 10^4],
    negated when [s] (a zero keeps its sign, as in Python). *)
Inductive rounded :=
| RNan
| RInf (neg : bool)
| RDec (neg : bool) (n : Z).

(** the integer nearest to [num / den], ties to the even one
    ([0 <= num], [0 < den]) *)
Definition round_half_even (num den : Z) : Z :=
  let k := num / den in
  match 2 * (num mod den) ?= den with
  | Lt => k
  | Gt => k + 1
  | Eq => if Z.even k then k else k + 1
  end.

(** [m * 2^e * 10^4] as a fraction *)
Definition scaled4 (m : positive) (e : Z) : Z * Z :=
  if 0 <=? e then (Z.pos m * 2 ^ e * 10000, 1)
  else (Z.pos m * 10000, 2 ^ (- e)).

(** [round(x, 4)]: CPython rounds the exact value of the float correctly
    (half to even) to four decimals and returns the float nearest to
    that decimal; NaN and the infinities round to themselves. *)
Definition round4 (x : spec_float) : rounded :=
  match x with
  | S754_nan => RNan
  | S754_infinity s => RInf s
  | S754_zero s => RDec s 0
  | S754_finite s m e =>
      let '(num, den) := scaled4 m e in RDec s (round_half_even num den)
  end.

(** *** The text of a float

    [round(x, 4)] hands back the float nearest to the decimal, and
    [repr] prints the shortest decimal that reads back as that float. *)

(** [num / den] divided by [2^e], as a fraction *)
Definition over_pow2 (num den e : Z) : Z * Z :=
  if 0 <=? e then (num, den * 2 ^ e) else (num * 2 ^ (- e), den).

(** The binary64 float nearest to [num / den], ties to the even
    mantissa, as [(m, e)] of value [m * 2^e] with a mantissa of 53 bits
    ([0 < num], [0 < den]; the fractions met here lie in the range of the
    normal floats). *)
Definition nearest_double (num den : Z) : Z * Z :=
  let e0 := Z.log2 num - Z.log2 den - 52 in
  let '(n0, d0) := over_pow2 num den e0 in
  let e := if n0 / d0 <? 2 ^ 52 then e0 - 1
           else if 2 ^ 53 <=? n0 / d0 then e0 + 1 else e0 in
  let '(n1, d1) := over_pow2 num den e in
  let m := round_half_even n1 d1 in
  if m =? 2 ^ 53 then (2 ^ 52, e + 1) else (m, e).

(** [num / den] divided by [10^p], as a fraction *)
Definition over_pow10 (num den p : Z) : Z * Z :=
  if 0 <=? p then (num, den * 10 ^ p) else (num * 10 ^ (- p), den).

(** the decimal [D * 10^p] reads back as the float [m * 2^e] *)
Definition reads_as (m e D p : Z) : bool :=
  let '(n, d) := over_pow10 D 1 (- p) in
  let '(m', e') := nearest_double n d in
  (m' =? m) && (e' =? e).

(** the least [k] from [k] on with [num / den < 10^k] *)
Fixpoint find_decpt (fuel : nat) (num den k : Z) : Z :=
  match fuel with
  | O => k
  | S fuel' =>
      let '(n, d) := over_pow10 num den k in
      if n <? d then k else find_decpt fuel' num den (k + 1)
  end.

(** Of the decimals [D * 10^p] around [yn / yd], the value of the float
    [m * 2^e], those that read back as it: the nearer one, if any. *)
Definition candidate (yn yd m e p : Z) : option Z :=
  let '(n, d) := over_pow10 yn yd p in
  let lo := n / d in
  let hi := lo + 1 in
  match reads_as m e lo p, reads_as m e hi p with
  | true, true =>
      match 2 * (n mod d) ?= d with
      | Lt => Some lo
      | Gt => Some hi
      | Eq => Some (if Z.even lo then lo else hi)
      end
  | true, false => Some lo
  | false, true => Some hi
  | false, false => None
  end.

(** the decimal of fewest digits, from [k] digits on, that reads back
    as the float; [decpt] is the number of digits the value has before
    the point *)
Fixpoint shortest (fuel : nat) (yn yd m e decpt k : Z) : Z * Z :=
  match fuel with
  | O => (0, 0)
  | S fuel' =>
      match candidate yn yd m e (decpt - k) with
      | Some D => (D, decpt - k)
      | None => shortest fuel' yn yd m e decpt (k + 1)
      end
  end.

Fixpoint strip_zeros (fuel : nat) (D p : Z) : Z * Z :=
  match fuel with
  | O => (D, p)
  | S fuel' =>
      if (D mod 10 =? 0) && negb (D =? 0) then strip_zeros fuel' (D / 10) (p + 1)
      else (D, p)
  end.

Fixpoint zeros (n : nat) : string :=
  match n with
  | O => EmptyString
  | S n' => String "0" (zeros n')
  end.

(** [repr] lays the digits out: with an exponent when the point would
    stand more than 16 digits in or more than 3 zeros before the first
    digit, and plainly otherwise, always with a digit after the point *)
Definition layout (digits : string) (decpt : Z) : string :=
  let nd := Z.of_nat (String.length digits) in
  if (decpt <=? -4) || (16 <? decpt) then
    let mantissa :=
      match digits with
      | String a (String b rest) => String a ("." +:+ String b rest)
      | _ => digits
      end in
    let ex := decpt - 1 in
    mantissa +:+ "e" +:+ (if ex <? 0 then "-" else "+")
    +:+ (if Z.abs ex <? 10 then "0" else "") +:+ pretty (Z.abs ex)
  else if decpt <=? 0 then "0." +:+ zeros (Z.to_nat (- decpt)) +:+ digits
  else if decpt <? nd then
    PyStr.take (Z.to_nat decpt) digits +:+ "." +:+ PyStr.drop (Z.to_nat decpt) digits
  else digits +:+ zeros (Z.to_nat (decpt - nd)) +:+ ".0".

(** [repr] of the positive float nearest to [num / den] *)
Definition repr_nearest (num den : Z) : string :=
  let '(m, e) := nearest_double num den in
  let '(yn, yd) := over_pow2 m 1 (- e) in
  let decpt := find_decpt 330 yn yd (-3) in
  let '(D, p) := shortest 17 yn yd m e decpt 1 in
  let '(D, p) := strip_zeros 400 D p in
  let digits := pretty D in
  layout digits (p + Z.of_nat (String.length digits)).

(** [repr(round(x, 4))], from the decimal [round4] gives *)
Definition repr_rounded (r : rounded) : string :=
  match r with
  | RNan => "nan"
  | RInf s => if s then "-inf" else "inf"
  | RDec s n =>
      (if s then "-" else "")
      +:+ (if n =? 0 then "0.0" else repr_nearest n 10000)
  end.

(** the values of the [cache_params] dict *)
Inductive param :=
| PFloat (r : rounded)
| PInt (z : Z)
| PStr (s : string).

(** [f"{v}"] *)
Definition format_param (v : param) : string :=
  match v with
  | PFloat r => repr_rounded r
  | PInt z => pretty z
  | PStr s => s
  end.

(** [cache_params.items()], in the order the dict literal lists them *)
Definition cache_params (qr : Query) : list (string * param) :=
  [ ("lat", PFloat (round4 (lat qr)));
    ("lng", PFloat (round4 (lng qr)));
    ("rayon", PInt (rayon_km qr));
    ("q", PStr (q qr));
    ("ds", PStr (date_start qr));
    ("de", PStr (date_end qr));
    ("lvl", PStr (level qr));
    ("et", PStr (etype qr)) ].

(** [sorted] on (key, value) pairs with pairwise distinct keys: the keys
    decide the order *)
Fixpoint insert_sorted (kv : string * param) (l : list (string * param))
  : list (string * param) :=
  match l with
  | [] => [kv]
  | kv' :: l' =>
      if String.leb (fst kv) (fst kv') then kv :: l
      else kv' :: insert_sorted kv l'
  end.

Definition sorted (l : list (string * param)) : list (string * param) :=
  fold_right insert_sorted [] l.

(** the [cache_key] of [search_tenup] *)
Definition cache_key (qr : Query) : string :=
  PyStr.join "|"
    (map (fun kv => fst kv +:+ ":" +:+ format_param (snd kv))
         (sorted (cache_params qr))).


(** ** Results and the cache *)

(** The dict a search returns.  [total_api] is present for the web
    source only and holds whatever the site reported. *)
Record result := {
  count : nat;
  items : list json;
  source : string;
  total_api : option json;
}.

(** [CACHE_TTL], in seconds.  Timestamps are modelled as exact
    rationals. *)
Definition CACHE_TTL : Q := 3600 # 1.

(** [INTERNAL_CACHE]: key to (data, expiry) *)
Abbreviation cache_t := (gmap string (result * Q)).

(** step 2 of [search_tenup]: a live entry is returned, an expired one
    is deleted *)
Definition cache_get (now : Q) (key : string) (c : cache_t)
  : option result * cache_t :=
  match c !! key with
  | Some (data, expiry) =>
      if Qlt_le_dec now expiry then (Some data, c)
      else (None, delete key c)
  | None => (None, c)
  end.

(** step 3: above 500 entries, delete those with [now > exp] *)
Definition cache_evict (now : Q) (c : cache_t) : cache_t :=
  if (500 <? size c)%nat
  then filter (fun kv => Is_true (Qle_bool now (snd (snd kv)))) c
  else c.

(** step 4 *)
Definition cache_put (now : Q) (key : string) (r : result) (c : cache_t)
  : cache_t :=
  <[key := (r, (now + CACHE_TTL)%Q)]> c.

(** ** The credential store *)

(** A file, or an environment variable holding JSON: absent, present
    but unreadable or unparsable, or holding a value. *)
Inductive stored (A : Type) :=
| Missing
| Corrupt
| Holds (a : A).
Arguments Missing {A}.
Arguments Corrupt {A}.
Arguments Holds {A} a.

(** How a write under [DATA_DIR] ends.  Both writers first create the
    directory and open the file for writing, which empties it, and then
    write their text: the write goes through, or the file could not be
    opened and is as it was, or the file was opened and the writing
    failed, which leaves a text cut short, described by [left]. *)
Inductive write_outcome (T : Type) :=
| Written
| Refused
| Torn (left : T).
Arguments Written {T}.
Arguments Refused {T}.
Arguments Torn {T} left.

(** The environment and the three files under [DATA_DIR].
    [TENUP_TOKEN] is [Missing] when unset or empty.  [token_write] tells
    how a write of [token.json] ends; a text cut short reads as nothing
    ([None], as every proper prefix of the text of a dict does) or as the
    value its beginning happens to spell.  [cookie_write] tells how a
    write of [cookies.txt] ends, and how many characters reach the file
    when it is cut short. *)
Record store := {
  VERCEL : bool;
  TENUP_TOKEN : stored json;
  TENUP_COOKIE : option string;
  TOKEN_PATH : stored json;
  COOKIE_PATH : stored string;
  COOKIE_PATH_ALT : stored string;
  token_write : write_outcome (option json);
  cookie_write : write_outcome nat;
}.

(** [load_token_file]; Python's [None] is [JNull] *)
Definition load_token_file (st : store) : json :=
  match TOKEN_PATH st with
  | Holds j => j
  | _ =>
      match TENUP_TOKEN st with
      | Holds j => j
      | _ => JNull
      end
  end.

(** the [Cookie:] prefix removal shared by the three origins *)
Definition strip_cookie_prefix (raw : string) : string :=
  let raw := PyStr.strip raw in
  if PyStr.lower_startswith "cookie:" raw
  then PyStr.strip (PyStr.after_first ":" raw)
  else raw.

(** what is returned from a cookie file *)
Definition clean_cookie_file (raw : string) : string :=
  PyStr.join "; "
    (List.filter PyStr.nonempty
       (map PyStr.strip (PyStr.splitlines (strip_cookie_prefix raw)))).

(** [load_cookie_header] *)
Definition load_cookie_header (st : store) : option string :=
  match TENUP_COOKIE st with
  | Some (String a e) => Some (strip_cookie_prefix (String a e))
  | _ =>
      match COOKIE_PATH st with
      | Holds raw => Some (clean_cookie_file raw)
      | Corrupt => None
      | Missing =>
          match COOKIE_PATH_ALT st with
          | Holds raw => Some (clean_cookie_file raw)
          | _ => None
          end
      end
  end.

Definition with_token_file (f : stored json) (st : store) : store :=
  {| VERCEL := VERCEL st; TENUP_TOKEN := TENUP_TOKEN st;
     TENUP_COOKIE := TENUP_COOKIE st; TOKEN_PATH := f;
     COOKIE_PATH := COOKIE_PATH st; COOKIE_PATH_ALT := COOKIE_PATH_ALT st;
     token_write := token_write st; cookie_write := cookie_write st |}.

(** [save_token_file]: a failed write is swallowed, whatever it has
    done to the file *)
Definition save_token_file (data : json) (st : store) : store :=
  match token_write st with
  | Written => with_token_file (Holds data) st
  | Refused => st
  | Torn (Some j) => with_token_file (Holds j) st
  | Torn None => with_token_file Corrupt st
  end.

(** [cookies.txt] once it holds [text] *)
Definition write_cookie_alt (text : string) (st : store) : store :=
  {| VERCEL := VERCEL st; TENUP_TOKEN := TENUP_TOKEN st;
     TENUP_COOKIE := TENUP_COOKIE st; TOKEN_PATH := TOKEN_PATH st;
     COOKIE_PATH := COOKIE_PATH st; COOKIE_PATH_ALT := Holds text;
     token_write := token_write st; cookie_write := cookie_write st |}.

(** ** Outbound calls *)

(** Where a GET of [get_form_state] goes.  [urljoin] and [unquote] are
    kept symbolic. *)
Inductive target :=
| SiteRoot                       (* TENUP_BASE + "/" *)
| SearchPage                     (* TENUP_BASE + SEARCH_PATH *)
| UrlJoin (ref : string)         (* urljoin(TENUP_BASE, ref) *)
| UrlJoinUnquote (ref : string). (* urljoin(TENUP_BASE, unquote(ref)) *)

(** What the program reads of an httpx response: [location] is
    [resp.headers.get("location", "")], [url] is [str(resp.url)], [body]
    is the value of [resp.json()], if the text parses. *)
Record response := {
  status_code : Z;
  location : string;
  url : string;
  text : string;
  body : option json;
}.

(** A cookie of the headless browser; [domain] is [c.get("domain", "")]. *)
Record browser_cookie := {
  name : string;
  value : string;
  domain : string;
}.

(** The outbound calls, with what varies between two calls of a kind.
    A web session is identified by the cookie header it was opened
    with; a GET also tells whether the program has set the [cookietest]
    cookie on the session.  The form fields of an AJAX submission other
    than the page, the triggering element and the theme token are
    functions of the query. *)
Inductive request :=
| PostToken (refresh_token : json)
| GetMobile (token : json) (qr : Query)
| GetPage (cookie_header : string) (cookietest : bool) (t : target)
| PostAjax (cookie_header : string) (qr : Query)
    (page : nat) (trigger : string) (theme_token : json)
| LaunchBrowser.

(** ** State and exceptions *)

(** A computation over a state [S] that returns or raises. *)
Definition SE (S A : Type) : Type := S -> (exn + A) * S.

Definition ret {S A} (a : A) : SE S A := fun s => (inr a, s).

Definition raise {S A} (e : exn) : SE S A := fun s => (inl e, s).

Definition bind {S A B} (m : SE S A) (k : A -> SE S B) : SE S B :=
  fun s =>
    match m s with
    | (inr a, s') => k a s'
    | (inl e, s') => (inl e, s')
    end.

(** [try: m / except Exception as e: h e] *)
Definition try_except {S A} (m : SE S A) (h : exn -> SE S A) : SE S A :=
  fun s =>
    match m s with
    | (inl e, s') => h e s'
    | (inr a, s') => (inr a, s')
    end.

(** a pure step that may raise *)
Definition lift {S A} (r : exn + A) : SE S A := fun s => (r, s).

Definition gets {S A} (f : S -> A) : SE S A := fun s => (inr (f s), s).

Definition modify {S} (f : S -> S) : SE S unit := fun s => (inr tt, f s).

Notation "'let*' x := m 'in' k" := (bind m (fun x => k))
  (at level 10, x name, m at level 100, k at level 200).
Notation "m ;;; k" := (bind m (fun _ => k))
  (at level 100, k at level 200, right associativity).

(** [for x in l: body x] *)
Fixpoint for_each {S A} (l : list A) (body : A -> SE S unit) : SE S unit :=
  match l with
  | [] => ret tt
  | x :: l' => body x ;;; for_each l' body
  end.

(** the same sequencing for pure steps *)
Definition ebind {A B} (r : exn + A) (k : A -> exn + B) : exn + B :=
  match r with
  | inr a => k a
  | inl e => inl e
  end.

Notation "'let?' x := r 'in' k" := (ebind r (fun x => k))
  (at level 10, x name, r at level 100, k at level 200).

Fixpoint emap {A B} (f : A -> exn + B) (l : list A) : exn + list B :=
  match l with
  | [] => inr []
  | x :: l' => let? y := f x in let? ys := emap f l' in inr (y :: ys)
  end.

(** every run of [m] takes a state to one related to it by [R] *)
Definition stepwise {S A} (R : S -> S -> Prop) (m : SE S A) : Prop :=
  forall s r s', m s = (r, s') -> R s s'.

(** the state is left as it was *)
Definition unchanged {S} (s s' : S) : Prop := s' = s.

(** a pure step does not raise an [HTTPException] *)
Definition plain {A} (r : exn + A) : Prop :=
  forall c d, r <> inl (HTTPException c d).

(** ** Date normalisation of the mobile source *)

(** the [startDate] to [dateDebut] step of [normalize_dates], for one
    pair of field names *)
Definition copy_date (src dst : string) (it : json) : exn + json :=
  let? d := Py.get it src in
  if Py.truthy d then
    let? d' := Py.get it dst in
    if Py.truthy d' then inr it
    else
      match it with
      | JDict fields => inr (JDict (Py.assoc_set dst (JDict [("date", d)]) fields))
      | _ => inr it
      end
  else inr it.

(** [normalize_dates(items)] *)
Definition normalize_dates (items : json) : exn + list json :=
  let? l := Py.iter items in
  emap (fun it => let? it1 := copy_date "startDate" "dateDebut" it in
                  copy_date "endDate" "dateFin" it1) l.

(** [it.get(k)] on the fields of a dict *)
Definition field (k : string) (d : list (string * json)) : json :=
  match Py.assoc k d with Some x => x | None => JNull end.

(** an item needs no copy from [src] to [dst]: it is a dict whose [src]
    is falsy or whose [dst] is truthy *)
Definition settled (src dst : string) (it : json) : Prop :=
  exists d, it = JDict d /\
            (Py.truthy (field src d) = false \/ Py.truthy (field dst d) = true).

(** [it'] has every field of [it] that is truthy or is neither
    [dateDebut] nor [dateFin], with the value it has in [it] *)
Definition keeps_fields (it it' : json) : Prop :=
  exists d d', it = JDict d /\ it' = JDict d' /\
    forall k, (k <> "dateDebut" /\ k <> "dateFin") \/ Py.truthy (field k d) = true ->
              field k d' = field k d.

(** ** De-duplication in [fetch_web_ajax] *)

(** the locals of [fetch_web_ajax] that the page loops update *)
Record acc := {
  all_items : list json;
  seen_ids : gset Py.key;
  total_from_api : json;
  current_theme_token : json;
}.

Definition set_token (t : json) (a : acc) : acc :=
  {| all_items := all_items a; seen_ids := seen_ids a;
     total_from_api := total_from_api a; current_theme_token := t |}.

Definition set_total (n : json) (a : acc) : acc :=
  {| all_items := all_items a; seen_ids := seen_ids a;
     total_from_api := n; current_theme_token := current_theme_token a |}.

Definition add_seen (k : Py.key) (item : json) (a : acc) : acc :=
  {| all_items := all_items a ++ [item]; seen_ids := {[k]} ∪ seen_ids a;
     total_from_api := total_from_api a;
     current_theme_token := current_theme_token a |}.

(** [item.get("originalId") or item.get("id") or ""] *)
Definition item_id (item : json) : exn + json :=
  let? a := Py.get item "originalId" in
  let? b := Py.get item "id" in
  inr (Py.or_ (Py.or_ a b) (JStr "")).

(** the body of [for item in ...]: append an item whose id is truthy
    and not seen yet *)
Definition add_item (item : json) : SE acc unit :=
  let* id := lift (item_id item) in
  if Py.truthy id then
    let* k := lift (Py.hash_key id) in
    let* seen := gets seen_ids in
    if bool_decide (k ∈ seen) then ret tt
    else modify (add_seen k item)
  else ret tt.

(** the body of [for cmd in data]; [first] is true for page 0, which
    alone records [nb_results] *)
Definition process_cmd (first : bool) (cmd : json) : SE acc unit :=
  let* c := lift (Py.get cmd "command") in
  (if Py.eq_str c "settings" then
     let* st := lift (Py.get_default cmd "settings" (JDict [])) in
     let* ps := lift (Py.get_default st "ajaxPageState" (JDict [])) in
     let* cur := gets current_theme_token in
     let* t := lift (Py.get_default ps "theme_token" cur) in
     modify (set_token t)
   else ret tt) ;;;
  if Py.eq_str c "recherche_tournois_update" then
    let* results := lift (Py.get_default cmd "results" (JDict [])) in
    (if first then
       let* nb := lift (Py.get_default results "nb_results" (JInt 0)) in
       modify (set_total nb)
     else ret tt) ;;;
    let* its := lift (Py.get_default results "items" (JList [])) in
    let* l := lift (Py.iter its) in
    for_each l add_item
  else ret tt.

(** [data = resp.json()] and the loop over its directives *)
Definition process_page (first : bool) (body : option json) : SE acc unit :=
  match body with
  | None => raise (Exception "JSONDecodeError")
  | Some data =>
      let* cmds := lift (Py.iter data) in
      for_each cmds (process_cmd first)
  end.


(** ** Reading traces and pages *)

Definition is_browser (r : request) : bool :=
  match r with LaunchBrowser => true | _ => false end.

Definition is_get (r : request) : bool :=
  match r with GetPage _ _ _ => true | _ => false end.

Definition is_ajax (r : request) : bool :=
  match r with PostAjax _ _ _ _ _ => true | _ => false end.

(** the page numbers of the AJAX submissions of a trace, in order *)
Definition ajax_pages (tr : list request) : list nat :=
  omap (fun r => match r with PostAjax _ _ p _ _ => Some p | _ => None end) tr.

(** a directive that carries results *)
Definition is_results_update (cmd : json) : bool :=
  match Py.get cmd "command" with
  | inr c => Py.eq_str c "recherche_tournois_update"
  | inl _ => false
  end.

(** the body of a response has no directive that carries results: it
    does not parse, or cannot be iterated, or none of its elements is a
    results update *)
Definition no_results_update (body : option json) : Prop :=
  match body with
  | None => True
  | Some data =>
      match Py.iter data with
      | inl _ => True
      | inr cmds => Forall (fun c => is_results_update c = false) cmds
      end
  end.

(** the identity key under which an item is de-duplicated, if it has
    one: [originalId] if truthy, else [id] if truthy *)
Definition identity_key (item : json) : option Py.key :=
  match item_id item with
  | inr id =>
      if Py.truthy id then
        match Py.hash_key id with
        | inr k => Some k
        | inl _ => None
        end
      else None
  | inl _ => None
  end.

(** ** What a page serves

    The reading of a response that the specification speaks of: the
    items its results directives carry, the theme token and the total it
    reports.  A response that is not a sequence of well-formed
    directives serves nothing. *)

(** [d.get(k, dflt)] on the fields of a dict *)
Definition field_or (k : string) (dflt : json) (d : list (string * json)) : json :=
  match Py.assoc k d with Some x => x | None => dflt end.

(** the number a reported total stands for in a comparison *)
Definition numeric (v : json) : option Z :=
  match v with
  | JInt z => Some z
  | JBool b => Some (if b then 1 else 0)
  | _ => None
  end.

(** an item that can be taken up: a dict whose id, if it has a truthy
    one, can be a member of a set *)
Definition keyable (it : json) : bool :=
  match it with
  | JDict d =>
      let id := Py.or_ (Py.or_ (field "originalId" d) (field "id" d)) (JStr "") in
      if Py.truthy id then
        match id with
        | JList _ | JDict _ => false
        | _ => true
        end
      else true
  | _ => false
  end.

(** the items a directive carries: those of a results update, none for
    any other well-formed directive *)
Definition directive_items (cmd : json) : option (list json) :=
  match cmd with
  | JDict d =>
      if Py.eq_str (field "command" d) "settings" then
        match field_or "settings" (JDict []) d with
        | JDict st =>
            match field_or "ajaxPageState" (JDict []) st with
            | JDict _ => Some []
            | _ => None
            end
        | _ => None
        end
      else if Py.eq_str (field "command" d) "recherche_tournois_update" then
        match field_or "results" (JDict []) d with
        | JDict rs =>
            match Py.iter (field_or "items" (JList []) rs) with
            | inr l => if forallb keyable l then Some l else None
            | inl _ => None
            end
        | _ => None
        end
      else Some []
  | _ => None
  end.

(** the theme token after a directive: the one a settings directive
    carries, if it carries one *)
Definition directive_token (cur : json) (cmd : json) : json :=
  match cmd with
  | JDict d =>
      if Py.eq_str (field "command" d) "settings" then
        match field_or "settings" (JDict []) d with
        | JDict st =>
            match field_or "ajaxPageState" (JDict []) st with
            | JDict ps => field_or "theme_token" cur ps
            | _ => cur
            end
        | _ => cur
        end
      else cur
  | _ => cur
  end.

(** the total after a directive of page 0: the one a results update
    reports, 0 if it reports none *)
Definition directive_total (cur : json) (cmd : json) : json :=
  match cmd with
  | JDict d =>
      if Py.eq_str (field "command" d) "recherche_tournois_update" then
        match field_or "results" (JDict []) d with
        | JDict rs => field_or "nb_results" (JInt 0) rs
        | _ => cur
        end
      else cur
  | _ => cur
  end.

Fixpoint gather (cmds : list json) : option (list json) :=
  match cmds with
  | [] => Some []
  | cmd :: cmds' =>
      match directive_items cmd, gather cmds' with
      | Some l, Some ls => Some (l ++ ls)
      | _, _ => None
      end
  end.

(** the directives of a response *)
Definition directives (body : option json) : option (list json) :=
  match body with
  | Some data =>
      match Py.iter data with
      | inr cmds => Some cmds
      | inl _ => None
      end
  | None => None
  end.

(** the items a response serves, in order, when it can be read in full *)
Definition served (body : option json) : option (list json) :=
  match directives body with
  | Some cmds => gather cmds
  | None => None
  end.

(** the theme token to use after a response *)
Definition page_token (cur : json) (body : option json) : json :=
  match directives body with
  | Some cmds => fold_left directive_token cmds cur
  | None => cur
  end.

(** the total page 0 reports *)
Definition reported_total (body : option json) : json :=
  match directives body with
  | Some cmds => fold_left directive_total cmds (JInt 0)
  | None => JInt 0
  end.

(** the items of [l] that are new to a collection with the keys [seen]:
    those with an identity key that is neither in [seen] nor borne by an
    earlier item of [l] *)
Fixpoint fresh (seen : gset Py.key) (l : list json) : list json :=
  match l with
  | [] => []
  | it :: l' =>
      match identity_key it with
      | Some k =>
          (if bool_decide (k ∈ seen) then [] else [it])
          ++ fresh ({[k]} ∪ seen) l'
      | None => fresh seen l'
      end
  end.

(** the identity keys borne by the items of [l] *)
Definition keys_of (l : list json) : gset Py.key :=
  list_to_set (omap identity_key l).

(** the locals once the items [l] have been served and the theme token
    is [tk] *)
Definition advance (a : acc) (l : list json) (tk : json) : acc :=
  {| all_items := all_items a ++ fresh (seen_ids a) l;
     seen_ids := keys_of l ∪ seen_ids a;
     total_from_api := total_from_api a;
     current_theme_token := tk |}.


(** what the page loops maintain: every collected item has an identity
    key, no key occurs twice, and [seen_ids] is the set of those keys *)
Definition deduplicated (a : acc) : Prop :=
  Forall (fun it => is_Some (identity_key it)) (all_items a) /\
  NoDup (omap identity_key (all_items a)) /\
  seen_ids a = list_to_set (omap identity_key (all_items a)).

(** the collection only grows at its end, and stays de-duplicated *)
Definition acc_grows (a a' : acc) : Prop :=
  (exists ext, all_items a' = all_items a ++ ext) /\
  (deduplicated a -> deduplicated a').

(** the reported total is left alone *)
Definition same_total (a a' : acc) : Prop :=
  total_from_api a' = total_from_api a.

(** nothing but the theme token changes *)
Definition same_items (a a' : acc) : Prop :=
  all_items a' = all_items a /\ seen_ids a' = seen_ids a /\
  total_from_api a' = total_from_api a.
(** ** Concrete inputs used by the examples further down *)

Module Ex.

(** 48.015625 and 48.015655517578125: both floats read 48.0156 when cut
    after the fourth decimal *)
Definition lat_a : spec_float := S754_finite false 3073 (-6).


Definition some_result : result :=
  {| count := 1; items := [JDict [("id", JInt 7)]]; source := "mobile_api";
     total_api := None |}.

Definition query (x : spec_float) : Query :=
  {| lat := x; lng := S754_finite false 5 (-1); rayon_km := 100; q := "Paris";
     date_start := "2026-01-15"; date_end := "2026-04-15";
     level := ""; etype := "" |}.

(** the query of the examples with another level and locality *)
Definition query_for (lvl loc : string) : Query :=
  {| lat := lat_a; lng := S754_finite false 5 (-1); rayon_km := 100; q := loc;
     date_start := "2026-01-15"; date_end := "2026-04-15";
     level := lvl; etype := "" |}.

(** an item of the mobile source with a start date only *)
Definition dated_item : json :=
  JDict [("id", JInt 7); ("startDate", JStr "2026-02-01")].

Definition bundle (access refresh : string) : json :=
  JDict [("access_token", JStr access); ("refresh_token", JStr refresh)].

(** a store with nothing in it, running outside Vercel *)
Definition empty_store : store :=
  {| VERCEL := false; TENUP_TOKEN := Missing; TENUP_COOKIE := None;
     TOKEN_PATH := Missing; COOKIE_PATH := Missing; COOKIE_PATH_ALT := Missing;
     token_write := Written;
     cookie_write := Written |}.

(** both a token file and a [TENUP_TOKEN] override *)
Definition store_file_and_env : store :=
  {| VERCEL := false; TENUP_TOKEN := Holds (bundle "from-env" "r-env");
     TENUP_COOKIE := None;
     TOKEN_PATH := Holds (bundle "from-file" "r-file");
     COOKIE_PATH := Missing; COOKIE_PATH_ALT := Missing; token_write := Written;
     cookie_write := Written |}.


(** a [TENUP_COOKIE] override next to both cookie files *)
Definition store_cookies : store :=
  {| VERCEL := false; TENUP_TOKEN := Missing;
     TENUP_COOKIE := Some "Cookie: env=1";
     TOKEN_PATH := Missing;
     COOKIE_PATH := Holds "file=1"; COOKIE_PATH_ALT := Holds "alt=1";
     token_write := Written;
     cookie_write := Written |}.

End Ex.

(** ** The cookie jar of a web session *)

Module Cookie.

(** [s.split(c)]: the pieces between the occurrences of [c], of which
    there is always at least one *)
Fixpoint split_on (c : ascii) (s : string) : list string :=
  match s with
  | EmptyString => [EmptyString]
  | String a s' =>
      if Ascii.eqb a c then EmptyString :: split_on c s'
      else
        match split_on c s' with
        | piece :: pieces => String a piece :: pieces
        | [] => [String a EmptyString]
        end
  end.

Definition mem_char (a : ascii) (s : string) : bool :=
  existsb (Ascii.eqb a) (list_ascii_of_string s).

(** the [safe] argument the program passes to [urllib.parse.quote] *)
Definition safe : string := "!#$%&'()*+-.^_`|~/:?@[]{}=,%".

(** the characters [quote] leaves alone: the ASCII letters and digits,
    the four marks it never quotes, and those of [safe] *)
Definition kept (a : ascii) : bool :=
  let n := nat_of_ascii a in
  ((48 <=? n) && (n <=? 57) || (65 <=? n) && (n <=? 90) ||
   (97 <=? n) && (n <=? 122))%nat
  || mem_char a "_.-~" || mem_char a safe.

Definition hex_digit (k : nat) : ascii :=
  match k with
  | 0 => "0" | 1 => "1" | 2 => "2" | 3 => "3" | 4 => "4" | 5 => "5"
  | 6 => "6" | 7 => "7" | 8 => "8" | 9 => "9" | 10 => "A" | 11 => "B"
  | 12 => "C" | 13 => "D" | 14 => "E" | _ => "F"
  end%nat%char.

(** the escape of one byte: a percent sign and two capital hex digits *)
Definition pct (byte : nat) : string :=
  String "%" (String (hex_digit (byte / 16)) (String (hex_digit (byte mod 16)) EmptyString)).

(** the escape of one character: of its one UTF-8 byte below 128, of its
    two bytes from there to 255 *)
Definition quote_char (a : ascii) : string :=
  if kept a then String a EmptyString
  else
    let n := nat_of_ascii a in
    if (n <? 128)%nat then pct n
    else pct (192 + n / 64) +:+ pct (128 + n mod 64).

(** [urllib.parse.quote(value, safe=safe)] *)
Fixpoint quote (value : string) : string :=
  match value with
  | EmptyString => EmptyString
  | String a value' => quote_char a +:+ quote value'
  end.

(** [cookies[name] = value] on a dict of strings: replace in place, or
    append *)
Fixpoint dict_set (name value : string) (cookies : list (string * string))
  : list (string * string) :=
  match cookies with
  | [] => [(name, value)]
  | (n, v) :: cookies' =>
      if String.eqb name n then (name, value) :: cookies'
      else (n, v) :: dict_set name value cookies'
  end.

(** the body of [for chunk in cookie_header.split(";")]; the chunk has
    no equals sign exactly when nothing is left after its longest prefix
    free of one *)
Definition parse_chunk (cookies : list (string * string)) (chunk : string)
  : list (string * string) :=
  match PyStr.span_not "=" chunk with
  | (_, EmptyString) => cookies
  | (name, String _ value) =>
      let name := PyStr.strip name in
      let value := PyStr.strip value in
      if PyStr.nonempty name then dict_set name (quote value) cookies
      else cookies
  end.

(** [parse_cookie_header]: the dict, in insertion order *)
Definition parse_cookie_header (cookie_header : string) : list (string * string) :=
  fold_left parse_chunk (split_on ";" cookie_header) [].

(** a character that can stand in a cookie value of a request header:
    printable ASCII other than the space, the double quote, the
    semicolon and the backslash *)
Definition header_safe (a : ascii) : bool :=
  let n := nat_of_ascii a in
  ((33 <=? n) && (n <=? 126) && negb (n =? 34) && negb (n =? 59)
   && negb (n =? 92))%nat.

(** the jars [parse_cookie_header] builds: no empty name, every value
    quoted, no name twice *)
Definition jar_ok (cookies : list (string * string)) : Prop :=
  Forall (fun kv => PyStr.nonempty (fst kv) = true /\
                    PyStr.all_chars kept (snd kv) = true) cookies /\
  NoDup (map fst cookies).

End Cookie.

(** ** The program over an arbitrary outside world *)

(** a transport failure, or what came back *)
Definition outcome (A : Type) : Type := string + A.

(** The state [_perform_search] runs in: the outside world, the
    credential store, and the outbound calls made so far. *)
Record state (W : Type) := {
  world : W;
  files : store;
  trace : list request;
}.
Arguments world {W} s.
Arguments files {W} s.
Arguments trace {W} s.

Definition with_files {W} (f : store -> store) (s : state W) : state W :=
  {| world := world s; files := f (files s); trace := trace s |}.

(** [raise_for_status]: httpx raises unless the status is 2xx *)
Definition is_success (resp : response) : bool :=
  (200 <=? status_code resp) && (status_code resp <=? 299).

Definition raise_for_status {S} (resp : response) : SE S unit :=
  if is_success resp then ret tt
  else raise (Exception ("HTTPStatusError: " +:+ pretty (status_code resp))).

(** [resp.json()] *)
Definition resp_json {S} (resp : response) : SE S json :=
  match body resp with
  | Some j => ret j
  | None => raise (Exception "JSONDecodeError")
  end.

(** the statuses [get_form_state] treats as redirects *)
Definition is_redirect (c : Z) : bool :=
  (c =? 301) || (c =? 302) || (c =? 303) || (c =? 307) || (c =? 308).

(** [html[:300] if html else "No HTML"] *)
Definition snippet (html : string) : string :=
  if PyStr.nonempty html then PyStr.take 300 html else "No HTML".

(** the page numbers of [range(1, max_pages)] once [max_pages = 10] *)
Definition later_pages : list nat := seq 1 9.

(** [q or "Ville"], the locality the web form is filled with *)
Definition web_query (qr : Query) : Query :=
  {| lat := lat qr; lng := lng qr; rayon_km := rayon_km qr;
     q := if PyStr.nonempty (q qr) then q qr else "Ville";
     date_start := date_start qr; date_end := date_end qr;
     level := level qr; etype := etype qr |}.

Definition mobile_result (l : list json) : result :=
  {| count := length l; items := l; source := "mobile_api"; total_api := None |}.



Definition web_result (a : acc) : result :=
  {| count := length (all_items a); items := all_items a;
     source := "tenup_web"; total_api := Some (total_from_api a) |}.

(** the result of a web fetch that collected nothing and was told of no
    total *)
Definition empty_web_result : result :=
  {| count := 0; items := []; source := "tenup_web"; total_api := Some (JInt 0) |}.

Definition init_acc (theme_token : string) : acc :=
  {| all_items := []; seen_ids := ∅; total_from_api := JInt 0;
     current_theme_token := JStr theme_token |}.

(** the header [fetch_cookie_header_via_playwright] builds *)
Definition cookie_header_of (cookies : list browser_cookie) : string :=
  let tenup :=
    List.filter (fun c => PyStr.contains "tenup.fft.fr" (domain c)) cookies in
  let tenup := match tenup with [] => cookies | _ => tenup end in
  PyStr.join "; " (map (fun c => name c +:+ "=" +:+ value c) tenup).

(** the submission of page 0, with the tokens of [get_form_state] *)
Definition page0_request (ck : string) (qr : Query) (tokens : string * string)
  : request :=
  PostAjax ck qr 0 "submit_main" (JStr (snd tokens)).

(** the submission of page [p] from the locals [a] *)
Definition page_request (ck : string) (qr : Query) (p : nat) (a : acc) : request :=
  PostAjax ck qr p "submit_page" (current_theme_token a).

(** ** Simulated worlds for the examples *)

Module Sim.

Definition page (status : Z) (u html : string) : response :=
  {| status_code := status; location := ""; url := u; text := html; body := None |}.

Definition redirect (loc : string) : response :=
  {| status_code := 302; location := loc; url := "https://tenup.fft.fr/recherche/tournois";
     text := ""; body := None |}.

Definition answer (status : Z) (b : option json) : response :=
  {| status_code := status; location := ""; url := ""; text := ""; body := b |}.

(** a search page that carries both tokens *)
Definition form_html : string :=
  "<input type=" +:+ Re.quoted "hidden" +:+ " name=" +:+ Re.quoted "form_build_id"
  +:+ " value=" +:+ Re.quoted "form-1" +:+ " /><script>{"
  +:+ Re.quoted "theme_token" +:+ ":" +:+ Re.quoted "tk1" +:+ "}</script>".

(** a search page with the client-side redirect as a browser receives
    it, and no tokens *)
Definition confirm_html : string :=
  "<script>document.cookie='cookietest=1';"
  +:+ "location.href=decodeURIComponent('%2Frecherche%2Ftournois');</script>".

Definition item (n : Z) : json :=
  JDict [("id", JInt n); ("libelle", JStr "Open")].

Definition results (total : json) (its : list json) : json :=
  JList [JDict [("command", JStr "recherche_tournois_update");
                ("results", JDict [("nb_results", total); ("items", JList its)])]].

Definition ten_items : list json := map item [1; 2; 3; 4; 5; 6; 7; 8; 9; 10].


(** A site that lets every session in and answers page [p] of the AJAX
    search with [pages p] (a transport failure when there is none). *)
Definition site (pages : nat -> option response) (w : unit) (r : request)
  : outcome response * unit :=
  (match r with
   | GetPage _ _ SiteRoot => inr (page 200 "https://tenup.fft.fr/" "")
   | GetPage _ _ _ =>
       inr (page 200 "https://tenup.fft.fr/recherche/tournois" form_html)
   | PostAjax _ _ p _ _ =>
       match pages p with
       | Some resp => inr resp
       | None => inl "ReadTimeout"
       end
   | _ => inl "ConnectError"
   end, w).

(** total 25, ten items on page 0, the same ten again on page 1 *)
Definition pages_25 (p : nat) : option response :=
  match p with
  | O | S O => Some (answer 200 (Some (results (JInt 25) ten_items)))
  | _ => Some (answer 200 (Some (results (JInt 25) [])))
  end.

(** total 25, ten items on page 0, items 9 to 12 on page 1, and no
    answer to any further page *)
Definition pages_more (p : nat) : option response :=
  match p with
  | O => Some (answer 200 (Some (results (JInt 25) ten_items)))
  | S O => Some (answer 200 (Some (results (JInt 25) (map item [9; 10; 11; 12]))))
  | _ => None
  end.

(** the total comes as a text *)
Definition pages_text (p : nat) : option response :=
  Some (answer 200 (Some (results (JStr "25") ten_items))).

(** every page holds item 1, an element that is no object, and item 2 *)
Definition pages_malformed (p : nat) : option response :=
  Some (answer 200 (Some (results (JInt 3) [item 1; JStr "oops"; item 2]))).


(** page 0 is a success whose body is not JSON *)
Definition pages_garbage (p : nat) : option response :=
  Some (answer 200 None).

(** The search page redirects to the queuing host spelt in capitals,
    which the test on the Location header does not recognise; the page
    then fetched reports the queuing host in its URL. *)
Definition queue_page_site (w : unit) (r : request) : outcome response * unit :=
  (match r with
   | GetPage _ _ SiteRoot => inr (page 200 "https://tenup.fft.fr/" "")
   | GetPage _ _ SearchPage => inr (redirect "https://fft.QUEUE-IT.NET/?c=fft")
   | GetPage _ _ _ => inr (page 200 "https://fft.queue-it.net/?c=fft" "")
   | _ => inl "ConnectError"
   end, w).

(** The search page redirects a session opened with the stale cookie to
    the queuing host; any other session gets the form, and an empty
    result list. *)
Definition queue_redirect_site (w : unit) (r : request) : outcome response * unit :=
  (match r with
   | GetPage _ _ SiteRoot => inr (page 200 "https://tenup.fft.fr/" "")
   | GetPage ck _ _ =>
       if String.eqb ck "stale=1"
       then inr (redirect "https://fft.queue-it.net/?c=fft")
       else inr (page 200 "https://tenup.fft.fr/recherche/tournois" form_html)
   | PostAjax _ _ _ _ _ => inr (answer 200 (Some (results (JInt 0) [])))
   | _ => inl "ConnectError"
   end, w).

(** The search page answers with the confirmation step. *)
Definition confirm_site (w : unit) (r : request) : outcome response * unit :=
  (match r with
   | GetPage _ _ SiteRoot => inr (page 200 "https://tenup.fft.fr/" "")
   | GetPage _ _ _ =>
       inr (page 200 "https://tenup.fft.fr/recherche/tournois" confirm_html)
   | _ => inl "ConnectError"
   end, w).

(** The mobile API rejects the access token "old" with 401 and accepts
    "new"; the identity provider exchanges any refresh token for the
    bundle ("new", "r2"). *)
Definition mobile_site (w : unit) (r : request) : outcome response * unit :=
  (match r with
   | GetMobile tok _ =>
       if Py.eq_str tok "new"
       then inr (answer 200 (Some (JDict [("items", JList [item 7])])))
       else inr (answer 401 None)
   | PostToken _ => inr (answer 200 (Some (Ex.bundle "new" "r2")))
   | _ => inl "ConnectError"
   end, w).

(** a browser that comes back with one cookie of the site *)
Definition browser (w : unit) : outcome (list browser_cookie) * unit :=
  (inr [{| name := "fresh"; value := "1"; domain := ".tenup.fft.fr" |}], w).

(** a browser that cannot be launched *)
Definition no_browser (w : unit) : outcome (list browser_cookie) * unit :=
  (inl "BrowserType.launch: executable not found", w).

(** the query of the examples, and its form as the web tier sends it *)
Definition q0 : Query := Ex.query Ex.lat_a.

Definition start (st : store) : state unit :=
  {| world := tt; files := st; trace := [] |}.

Definition store_with_cookie (ck : string) : store :=
  {| VERCEL := false; TENUP_TOKEN := Missing; TENUP_COOKIE := Some ck;
     TOKEN_PATH := Missing; COOKIE_PATH := Missing; COOKIE_PATH_ALT := Missing;
     token_write := Written;
     cookie_write := Written |}.

Definition store_with_token (b : json) : store :=
  {| VERCEL := false; TENUP_TOKEN := Missing; TENUP_COOKIE := None;
     TOKEN_PATH := Holds b; COOKIE_PATH := Missing; COOKIE_PATH_ALT := Missing;
     token_write := Written;
     cookie_write := Written |}.

(** a token file that holds [b] and cannot be written *)
Definition store_read_only (b : json) : store :=
  {| VERCEL := false; TENUP_TOKEN := Missing; TENUP_COOKIE := None;
     TOKEN_PATH := Holds b; COOKIE_PATH := Missing; COOKIE_PATH_ALT := Missing;
     token_write := Refused;
     cookie_write := Written |}.

(** nothing stored, on Vercel *)
Definition store_vercel : store :=
  {| VERCEL := true; TENUP_TOKEN := Missing; TENUP_COOKIE := None;
     TOKEN_PATH := Missing; COOKIE_PATH := Missing; COOKIE_PATH_ALT := Missing;
     token_write := Written;
     cookie_write := Written |}.

End Sim.

Section World.

(** The outside world: how the network answers a request, and what the
    headless browser returns, each possibly changing the world. *)
Variable W : Type.
Variable send : W -> request -> outcome response * W.
Variable browse : W -> outcome (list browser_cookie) * W.

Abbreviation M := (SE (state W)).

(** an outbound HTTP call; it is appended to the trace *)
Definition call (r : request) : M response :=
  fun s =>
    let '(o, w) := send (world s) r in
    let s' := {| world := w; files := files s; trace := trace s ++ [r] |} in
    match o with
    | inl msg => (inl (Exception msg), s')
    | inr resp => (inr resp, s')
    end.

(** the browser run of [fetch_cookie_header_via_playwright] *)
Definition launch : M (list browser_cookie) :=
  fun s =>
    let '(o, w) := browse (world s) in
    let s' := {| world := w; files := files s;
                 trace := trace s ++ [LaunchBrowser] |} in
    match o with
    | inl msg => (inl (Exception msg), s')
    | inr cookies => (inr cookies, s')
    end.

(** [refresh_access_token] *)
Definition refresh_access_token (refresh_token : json) : M json :=
  let* resp := call (PostToken refresh_token) in
  raise_for_status resp ;;;
  resp_json resp.

(** [fetch_mobile_api]: the normalised items *)
Definition fetch_mobile_api (token : json) (qr : Query) : M (list json) :=
  let* resp := call (GetMobile token qr) in
  if status_code resp =? 401 then
    raise (HTTPException 401
             "Token expiré ou invalide. Relance scripts/tenup_auth.py")
  else
    raise_for_status resp ;;;
    let* data := resp_json resp in
    let* a := lift (Py.get data "items") in
    let* b := lift (Py.get data "content") in
    lift (normalize_dates (Py.or_ (Py.or_ a b) (JList []))).

(** the [for _ in range(5)] loop of [get_form_state]; [html] is the
    text of the previous response *)
Fixpoint negotiate (n : nat) (ck : string) (cookietest : bool)
    (t : target) (html : string) : M (string * string) :=
  match n with
  | O => raise (RuntimeError ("TenUp inaccessible. Snippet: " +:+ snippet html))
  | S n' =>
      let* resp := call (GetPage ck cookietest t) in
      let html := text resp in
      if is_redirect (status_code resp) then
        if PyStr.contains "queue-it.net" (location resp) then
          raise (RuntimeError
                   "Queue-it redirection detected; cookies invalid or expired.")
        else negotiate n' ck cookietest (UrlJoin (location resp)) html
      else if PyStr.contains "queue-it.net" (url resp) then
        raise (RuntimeError "Queue-it page detected; cookies invalid or expired.")
      else
        match
          (if PyStr.contains "decodeURIComponent" html
              && PyStr.contains "cookietest" html
           then Re.search_decode_redirect html else None)
        with
        | Some redir => negotiate n' ck true (UrlJoinUnquote redir) html
        | None =>
            match Re.search_form_build_id html, Re.search_theme_token html with
            | Some m_id, Some m_tk => ret (m_id, m_tk)
            | _, _ => negotiate n' ck cookietest t html
            end
        end
  end.

(** [get_form_state], for the session opened with cookie header [ck] *)
Definition get_form_state (ck : string) : M (string * string) :=
  call (GetPage ck false SiteRoot) ;;;
  negotiate 5 ck false SearchPage "".

(** One round of the pagination loop after its [len(seen_ids) >=
    total_from_api] test: the [try] block.  It returns whether the loop
    goes on, never raises, and keeps what a failing page had already
    appended. *)
Definition page_step (ck : string) (qr : Query) (page_num : nat) (a : acc)
  : M (bool * acc) :=
  try_except
    (let* resp := call (page_request ck qr page_num a) in
     raise_for_status resp ;;;
     match process_page false (body resp) a with
     | (inl _, a') => ret (false, a')
     | (inr _, a') =>
         ret (negb (length (all_items a') - length (all_items a) =? 0)%nat, a')
     end)
    (fun _ => ret (false, a)).

(** [for page_num in range(1, max_pages)] *)
Fixpoint paginate (ck : string) (qr : Query) (pages : list nat) (a : acc)
  : M acc :=
  match pages with
  | [] => ret a
  | page_num :: pages' =>
      let* enough :=
        lift (Py.int_ge (Z.of_nat (size (seen_ids a))) (total_from_api a)) in
      if (enough : bool) then ret a
      else
        let* r := page_step ck qr page_num a in
        if fst r then paginate ck qr pages' (snd r) else ret (snd r)
  end.

(** [fetch_web_ajax] *)
Definition fetch_web_ajax (ck : string) (qr : Query) : M result :=
  let* tokens := get_form_state ck in
  let* resp := call (page0_request ck qr tokens) in
  raise_for_status resp ;;;
  let a0 := snd (process_page true (body resp) (init_acc (snd tokens))) in
  let* a := paginate ck qr later_pages a0 in
  ret (web_result a).

(** [fetch_cookie_header_via_playwright] *)
Definition fetch_cookie_header_via_playwright : M string :=
  let* st := gets files in
  if VERCEL st then
    raise (RuntimeError
             "Playwright not supported on Vercel. Please set 'TENUP_COOKIE' env var.")
  else
    let* cookies := launch in
    let header := cookie_header_of cookies in
    if PyStr.nonempty header then
      match cookie_write st with
      | Written =>
          modify (with_files (write_cookie_alt header)) ;;;
          ret header
      | Refused => raise (Exception "OSError")
      | Torn n =>
          modify (with_files (write_cookie_alt (PyStr.take n header))) ;;;
          raise (Exception "OSError")
      end
    else raise (RuntimeError "Playwright did not return any cookies.").

(** the refresh, persist and retry of the mobile tier *)
Definition mobile_refresh_retry (refresh_token : json) (qr : Query)
  : M (list json) :=
  let* new_tok := refresh_access_token refresh_token in
  modify (with_files (save_token_file new_tok)) ;;;
  let* access := lift (Py.get new_tok "access_token") in
  fetch_mobile_api access qr.

(** The mobile tier of [_perform_search], entered with a truthy access
    token: [Some] result when it returns, [None] when control falls
    through to the web tier. *)
Definition mobile_tier (access_token refresh_token : json) (qr : Query)
  : M (option result) :=
  try_except
    (let* l := fetch_mobile_api access_token qr in ret (Some (mobile_result l)))
    (fun he =>
       match he with
       | HTTPException c _ =>
           if (c =? 401) && Py.truthy refresh_token then
             try_except
               (let* l := mobile_refresh_retry refresh_token qr in
                ret (Some (mobile_result l)))
               (fun _ => ret None)
           else ret None
       | Exception _ => ret None
       end).

(** the headless refresh followed by one web fetch *)
Definition headless_then_web (qr : Query) : M result :=
  let* ck := fetch_cookie_header_via_playwright in
  fetch_web_ajax ck (web_query qr).

(** the web tier, entered with a non-empty cookie header *)
Definition web_tier (ck : string) (qr : Query) : M result :=
  try_except
    (fetch_web_ajax ck (web_query qr))
    (fun e =>
       if PyStr.contains "Queue-it redirection detected" (str_exn e) then
         try_except
           (headless_then_web qr)
           (fun e2 => raise (HTTPException 500 ("TenUp web error: " +:+ str_exn e2)))
       else raise (HTTPException 500 ("TenUp web error: " +:+ str_exn e))).

(** the last resort, when there is no cookie header *)
Definition last_resort (qr : Query) : M result :=
  try_except
    (headless_then_web qr)
    (fun e =>
       raise (HTTPException 502
                ("API mobile indisponible et cookies headless échoués: "
                 +:+ str_exn e))).

(** what follows the mobile tier in [_perform_search] *)
Definition after_mobile (cookie_header : option string) (qr : Query) : M result :=
  match cookie_header with
  | Some (String a ck) => web_tier (String a ck) qr
  | _ => last_resort qr
  end.

(** [_perform_search] *)
Definition _perform_search (qr : Query) : M result :=
  let* st := gets files in
  let token_data := load_token_file st in
  let cookie_header := load_cookie_header st in
  let* mobile :=
    (if Py.truthy token_data then
       let* access_token := lift (Py.get token_data "access_token") in
       if Py.truthy access_token then
         let* refresh_token := lift (Py.get token_data "refresh_token") in
         mobile_tier access_token refresh_token qr
       else ret None
     else ret None) in
  match mobile with
  | Some r => ret r
  | None => after_mobile cookie_header qr
  end.

(** [search_tenup], called at time [now]; [INTERNAL_CACHE] is the first
    component of its state *)
Definition search_tenup (now : Q) (qr : Query)
  : SE (cache_t * state W) result :=
  let key := cache_key qr in
  let* hit := (fun cs => let '(r, c) := cache_get now key (fst cs) in
                         (inr r, (c, snd cs))) in
  match hit with
  | Some data => ret data
  | None =>
      modify (fun cs => (cache_evict now (fst cs), snd cs)) ;;;
      try_except
        (let* r := (fun cs => let '(r, s) := _perform_search qr (snd cs) in
                              (r, (fst cs, s))) in
         modify (fun cs => (cache_put now key r (fst cs), snd cs)) ;;;
         ret r)
        (fun e =>
           raise (HTTPException 500 ("Internal Server Error: " +:+ str_exn e)))
  end.

(** ** Reading the trace *)

(** only requests satisfying [P] were appended between two states *)
Definition appends {W} (P : request -> Prop) (s s' : state W) : Prop :=
  exists tr, trace s' = trace s ++ tr /\ Forall P tr.

(** a request of the mobile tier *)
Definition is_mobile (r : request) : bool :=
  match r with
  | PostToken _ | GetMobile _ _ => true
  | _ => false
  end.


(** the state once request [r] has been sent and the world has moved
    to [w] *)
Definition sent (r : request) (w : W) (s : state W) : state W :=
  {| world := w; files := files s; trace := trace s ++ [r] |}.

(** The pagination of section 4.5 of the specification, step 6, as a
    relation between the pages left, the locals and state before, the
    lists of items served by the pages read in full, and the locals and
    state after.  It is written with what the responses serve
    ([served], [fresh], [page_token]) and not with the loop of the
    program.  Pagination stops when the page cap is reached, or the
    de-duplicated count has reached the reported total, or a page request
    fails or its response cannot be read in full (what was collected is
    kept), or a page yields no new item; otherwise the new items of the
    page are appended and the next page follows with the latest theme
    token. *)
Inductive paginated (ck : string) (qr : Query)
  : list nat -> acc -> state W -> list (list json) -> acc -> state W -> Prop :=
| pg_cap a s :
    paginated ck qr [] a s [] a s
| pg_total p ps a s t :
    numeric (total_from_api a) = Some t ->
    t <= Z.of_nat (length (all_items a)) ->
    paginated ck qr (p :: ps) a s [] a s
| pg_request_failed p ps a s t msg w :
    numeric (total_from_api a) = Some t ->
    Z.of_nat (length (all_items a)) < t ->
    send (world s) (page_request ck qr p a) = (inl msg, w) ->
    paginated ck qr (p :: ps) a s [] a (sent (page_request ck qr p a) w s)
| pg_status_failed p ps a s t resp w :
    numeric (total_from_api a) = Some t ->
    Z.of_nat (length (all_items a)) < t ->
    send (world s) (page_request ck qr p a) = (inr resp, w) ->
    is_success resp = false ->
    paginated ck qr (p :: ps) a s [] a (sent (page_request ck qr p a) w s)
| pg_page_failed p ps a s t resp w a' :
    numeric (total_from_api a) = Some t ->
    Z.of_nat (length (all_items a)) < t ->
    send (world s) (page_request ck qr p a) = (inr resp, w) ->
    is_success resp = true ->
    served (body resp) = None ->
    acc_grows a a' -> same_total a a' ->
    paginated ck qr (p :: ps) a s [] a' (sent (page_request ck qr p a) w s)
| pg_no_new p ps a s t resp w l :
    numeric (total_from_api a) = Some t ->
    Z.of_nat (length (all_items a)) < t ->
    send (world s) (page_request ck qr p a) = (inr resp, w) ->
    is_success resp = true ->
    served (body resp) = Some l ->
    fresh (seen_ids a) l = [] ->
    paginated ck qr (p :: ps) a s [l]
      (advance a l (page_token (current_theme_token a) (body resp)))
      (sent (page_request ck qr p a) w s)
| pg_next p ps a s t resp w l log a'' s'' :
    numeric (total_from_api a) = Some t ->
    Z.of_nat (length (all_items a)) < t ->
    send (world s) (page_request ck qr p a) = (inr resp, w) ->
    is_success resp = true ->
    served (body resp) = Some l ->
    fresh (seen_ids a) l <> [] ->
    paginated ck qr ps
      (advance a l (page_token (current_theme_token a) (body resp)))
      (sent (page_request ck qr p a) w s) log a'' s'' ->
    paginated ck qr (p :: ps) a s (l :: log) a'' s''.

(** ** Counting outbound calls *)

(** the requests appended between two states weigh at most [n] under
    the weight [wt] *)
Definition at_most (wt : request -> nat) (n : nat) (s s' : state W) : Prop :=
  exists tr, trace s' = trace s ++ tr /\ (sum_list_with wt tr <= n)%nat.

(** every run of [m] appends requests weighing at most [n] *)
Definition costs {A} (wt : request -> nat) (n : nat) (m : M A) : Prop :=
  forall s r s', m s = (r, s') -> at_most wt n s s'.

(** the weight that counts the requests satisfying [P] *)
Definition counting (P : request -> bool) (r : request) : nat :=
  if P r then 1%nat else 0%nat.

(* ================================================================= *)
(** * Properties *)

(** ** Sequencing lemmas *)

Lemma stepwise_ret {S A} (R : S -> S -> Prop) `{!Reflexive R} (a : A) :
  stepwise R (ret a).
Proof. intros s r s' [= <- <-]. reflexivity. Qed.

Lemma stepwise_raise {S A} (R : S -> S -> Prop) `{!Reflexive R} (e : exn) :
  stepwise R (@raise S A e).
Proof. intros s r s' [= <- <-]. reflexivity. Qed.

Lemma stepwise_lift {S A} (R : S -> S -> Prop) `{!Reflexive R} (x : exn + A) :
  stepwise R (lift x).
Proof. intros s r s' [= <- <-]. reflexivity. Qed.

Lemma stepwise_gets {S A} (R : S -> S -> Prop) `{!Reflexive R} (f : S -> A) :
  stepwise R (gets f).
Proof. intros s r s' [= <- <-]. reflexivity. Qed.

Lemma stepwise_modify {S} (R : S -> S -> Prop) (f : S -> S) :
  (forall s, R s (f s)) -> stepwise R (modify f).
Proof. intros Hf s r s' [= <- <-]. apply Hf. Qed.

Lemma stepwise_bind {S A B} (R : S -> S -> Prop) `{!Reflexive R, !Transitive R}
    (m : SE S A) (k : A -> SE S B) :
  stepwise R m -> (forall a, stepwise R (k a)) -> stepwise R (bind m k).
Proof.
  intros Hm Hk s r s'. unfold bind.
  destruct (m s) as [[e | a] s1] eqn:Em; intros Hr.
  - injection Hr as <- <-. exact (Hm _ _ _ Em).
  - transitivity s1; [exact (Hm _ _ _ Em) | exact (Hk _ _ _ _ Hr)].
Qed.

Lemma stepwise_try {S A} (R : S -> S -> Prop) `{!Reflexive R, !Transitive R}
    (m : SE S A) (h : exn -> SE S A) :
  stepwise R m -> (forall e, stepwise R (h e)) -> stepwise R (try_except m h).
Proof.
  intros Hm Hh s r s'. unfold try_except.
  destruct (m s) as [[e | a] s1] eqn:Em; intros Hr.
  - transitivity s1; [exact (Hm _ _ _ Em) | exact (Hh _ _ _ _ Hr)].
  - injection Hr as <- <-. exact (Hm _ _ _ Em).
Qed.

Lemma stepwise_for_each {S A} (R : S -> S -> Prop) `{!Reflexive R, !Transitive R}
    (l : list A) (body : A -> SE S unit) :
  (forall x, x ∈ l -> stepwise R (body x)) -> stepwise R (for_each l body).
Proof.
  induction l as [| x l IH]; intros Hbody; simpl.
  - by apply stepwise_ret.
  - apply stepwise_bind; [done | done | |].
    + apply Hbody. by left.
    + intros _. apply IH. intros y Hy. apply Hbody. by right.
Qed.

(** one structural step of a [stepwise] goal; [leaf] closes the
    [modify] and loop-body goals *)
Ltac stepwise_step leaf :=
  first
    [ apply stepwise_bind; [typeclasses eauto | typeclasses eauto | | intros ?]
    | apply stepwise_try; [typeclasses eauto | typeclasses eauto | | intros ?]
    | apply stepwise_lift; typeclasses eauto
    | apply stepwise_gets; typeclasses eauto
    | apply stepwise_ret; typeclasses eauto
    | apply stepwise_raise; typeclasses eauto
    | apply stepwise_modify; intros ?; leaf
    | apply stepwise_for_each;
        [typeclasses eauto | typeclasses eauto | intros ? _; leaf]
    | match goal with
      | |- stepwise _ (if ?b then _ else _) => destruct b
      | |- stepwise _ (match ?x with _ => _ end) => destruct x
      end
    | leaf ].

(** ** De-duplication *)

#[local] Instance acc_grows_refl : Reflexive acc_grows.
Proof. intros a. split; [exists []; by rewrite app_nil_r | done]. Qed.

#[local] Instance acc_grows_trans : Transitive acc_grows.
Proof.
  intros a b c [[e1 H1] D1] [[e2 H2] D2]. split; [| auto].
  exists (e1 ++ e2). by rewrite H2, H1, <- app_assoc.
Qed.

#[local] Instance same_total_refl : Reflexive same_total.
Proof. by intros a. Qed.

#[local] Instance same_total_trans : Transitive same_total.
Proof. unfold same_total. intros a b c H1 H2. congruence. Qed.

(** what [add_item] does, in terms of the identity key *)
Lemma add_item_run (item : json) (a : acc) :
  snd (add_item item a) =
    match identity_key item with
    | Some k => if bool_decide (k ∈ seen_ids a) then a else add_seen k item a
    | None => a
    end.
Proof.
  unfold add_item, identity_key, bind, lift, gets, modify, ret.
  destruct (item_id item) as [e | id]; [reflexivity |].
  destruct (Py.truthy id); [| reflexivity].
  destruct (Py.hash_key id) as [e | k]; [reflexivity |].
  destruct (bool_decide (k ∈ seen_ids a)); reflexivity.
Qed.

(** an item with an identity key never makes [add_item] raise *)
Lemma add_item_ok (item : json) (a : acc) (k : Py.key) :
  identity_key item = Some k -> fst (add_item item a) = inr tt.
Proof.
  unfold add_item, identity_key, bind, lift, gets, modify, ret.
  destruct (item_id item) as [e | id]; [discriminate |].
  destruct (Py.truthy id); [| discriminate].
  destruct (Py.hash_key id) as [e | k']; [discriminate |].
  intros _. destruct (bool_decide (k' ∈ seen_ids a)); reflexivity.
Qed.

Lemma deduplicated_add_seen (k : Py.key) (item : json) (a : acc) :
  identity_key item = Some k -> k ∉ seen_ids a ->
  deduplicated a -> deduplicated (add_seen k item a).
Proof.
  intros Hk Hnew (Hall & Hnd & Hseen). unfold deduplicated, add_seen. simpl.
  assert (Hkeys : omap identity_key (all_items a ++ [item])
                  = omap identity_key (all_items a) ++ [k]).
  { rewrite omap_app. simpl. by rewrite Hk. }
  rewrite Hkeys. split; [| split].
  - apply Forall_app. split; [done |]. constructor; [by rewrite Hk | constructor].
  - apply NoDup_app. split; [done |]. split; [| apply NoDup_singleton].
    intros x Hx Hx'. apply list_elem_of_singleton in Hx' as ->.
    apply Hnew. rewrite Hseen. by apply elem_of_list_to_set.
  - rewrite Hseen, list_to_set_app_L. simpl. set_solver.
Qed.

Lemma add_item_grows (item : json) : stepwise acc_grows (add_item item).
Proof.
  intros a r a' Hrun.
  assert (Ha' : a' = snd (add_item item a)) by (by rewrite Hrun).
  rewrite add_item_run in Ha'.
  destruct (identity_key item) as [k |] eqn:Hk; [| subst a'; reflexivity].
  destruct (bool_decide (k ∈ seen_ids a)) eqn:Hin; [subst a'; reflexivity |].
  apply bool_decide_eq_false in Hin. subst a'. split.
  - by exists [item].
  - by apply deduplicated_add_seen.
Qed.

Lemma add_item_same_total (item : json) : stepwise same_total (add_item item).
Proof.
  intros a r a' Hrun.
  assert (Ha' : a' = snd (add_item item a)) by (by rewrite Hrun).
  rewrite add_item_run in Ha'. subst a'.
  destruct (identity_key item) as [k |]; [| reflexivity].
  destruct (bool_decide (k ∈ seen_ids a)); reflexivity.
Qed.

Lemma set_token_grows (t : json) (a : acc) : acc_grows a (set_token t a).
Proof. split; [exists []; simpl; by rewrite app_nil_r | done]. Qed.

Lemma set_total_grows (n : json) (a : acc) : acc_grows a (set_total n a).
Proof. split; [exists []; simpl; by rewrite app_nil_r | done]. Qed.

Lemma process_cmd_grows (first : bool) (cmd : json) :
  stepwise acc_grows (process_cmd first cmd).
Proof.
  unfold process_cmd.
  repeat stepwise_step
    ltac:(first [apply set_token_grows | apply set_total_grows | apply add_item_grows]).
Qed.

Lemma process_page_grows (first : bool) (body : option json) :
  stepwise acc_grows (process_page first body).
Proof.
  unfold process_page. repeat stepwise_step ltac:(apply process_cmd_grows).
Qed.

Lemma process_cmd_same_total (cmd : json) :
  stepwise same_total (process_cmd false cmd).
Proof.
  unfold process_cmd.
  repeat stepwise_step ltac:(first [reflexivity | apply add_item_same_total]).
Qed.

Lemma process_page_same_total (body : option json) :
  stepwise same_total (process_page false body).
Proof.
  unfold process_page. repeat stepwise_step ltac:(apply process_cmd_same_total).
Qed.


(** ** Which exceptions the pure steps raise *)

Lemma plain_get_default v k dflt : plain (Py.get_default v k dflt).
Proof. intros c d. destruct v; discriminate. Qed.

Lemma plain_get v k c d : Py.get v k = inl (HTTPException c d) -> False.
Proof. apply plain_get_default. Qed.

Lemma plain_iter v : plain (Py.iter v).
Proof. intros c d. destruct v; discriminate. Qed.

Lemma plain_ebind {A B} (r : exn + A) (k : A -> exn + B) :
  plain r -> (forall a, plain (k a)) -> plain (ebind r k).
Proof.
  intros Hr Hk c d. destruct r as [e | a]; simpl; [| exact (Hk a c d)].
  intros [= ->]. exact (Hr c d eq_refl).
Qed.

Lemma plain_emap {A B} (f : A -> exn + B) (l : list A) :
  (forall x, plain (f x)) -> plain (emap f l).
Proof.
  intros Hf. induction l as [| x l IH]; [discriminate |].
  simpl. apply plain_ebind; [apply Hf | intros y].
  apply plain_ebind; [exact IH | intros ys; discriminate].
Qed.

Lemma plain_copy_date src dst it : plain (copy_date src dst it).
Proof.
  unfold copy_date. apply plain_ebind; [apply plain_get_default | intros d].
  destruct (Py.truthy d); [| discriminate].
  apply plain_ebind; [apply plain_get_default | intros d'].
  destruct (Py.truthy d'); [discriminate |]. destruct it; discriminate.
Qed.

Lemma plain_normalize_dates v c d :
  normalize_dates v = inl (HTTPException c d) -> False.
Proof.
  apply (plain_ebind (Py.iter v)); [apply plain_iter | intros l].
  apply plain_emap. intros it.
  apply plain_ebind; [apply plain_copy_date | intros it1; apply plain_copy_date].
Qed.

(** ** Reading a page *)

Lemma acc_ext (a b : acc) :
  all_items a = all_items b -> seen_ids a = seen_ids b ->
  total_from_api a = total_from_api b ->
  current_theme_token a = current_theme_token b -> a = b.
Proof. destruct a, b; simpl; congruence. Qed.

Lemma keys_of_app (l1 l2 : list json) :
  keys_of (l1 ++ l2) = keys_of l2 ∪ keys_of l1.
Proof.
  unfold keys_of. rewrite omap_app, list_to_set_app_L. apply (comm_L (∪)).
Qed.

Lemma union_shift `{Countable K} (A seen : gset K) (k : K) :
  A ∪ ({[k]} ∪ seen) = {[k]} ∪ A ∪ seen.
Proof.
  apply set_eq. intros x. rewrite !elem_of_union, !elem_of_singleton. tauto.
Qed.

Lemma fresh_app (seen : gset Py.key) (l1 l2 : list json) :
  fresh seen (l1 ++ l2) = fresh seen l1 ++ fresh (keys_of l1 ∪ seen) l2.
Proof.
  revert seen. induction l1 as [| it l1 IH]; intros seen; simpl.
  - unfold keys_of. simpl. by rewrite (left_id_L ∅ (∪)).
  - unfold keys_of. simpl. destruct (identity_key it) as [k |]; simpl.
    + rewrite IH, <- app_assoc. do 3 f_equal. apply union_shift.
    + apply IH.
Qed.

Lemma advance_advance (a : acc) (l1 l2 : list json) (tk1 tk2 : json) :
  advance (advance a l1 tk1) l2 tk2 = advance a (l1 ++ l2) tk2.
Proof.
  apply acc_ext; simpl; try reflexivity.
  - by rewrite fresh_app, app_assoc.
  - rewrite keys_of_app. by rewrite (assoc_L (∪)).
Qed.

Lemma advance_nil (a : acc) : advance a [] (current_theme_token a) = a.
Proof.
  apply acc_ext; simpl; try reflexivity.
  - apply app_nil_r.
  - unfold keys_of. simpl. by rewrite (left_id_L ∅ (∪)).
Qed.

(** what [fresh] picks: items with a key, pairwise distinct keys, none
    of them seen before, and together with the seen keys all the keys of
    the list *)
Lemma union_seen_member `{Countable K} (X Y seen : gset K) (k : K) :
  X ∪ ({[k]} ∪ seen) = Y ∪ ({[k]} ∪ seen) -> k ∈ seen ->
  X ∪ seen = {[k]} ∪ Y ∪ seen.
Proof.
  intros E Hk. apply set_eq. intros x.
  assert (Hx : x ∈ X ∪ ({[k]} ∪ seen) <-> x ∈ Y ∪ ({[k]} ∪ seen)) by (by rewrite E).
  rewrite !elem_of_union, !elem_of_singleton in *.
  split; intros; destruct (decide (x = k)); subst; tauto.
Qed.

Lemma union_seen_new `{Countable K} (X Y seen : gset K) (k : K) :
  X ∪ ({[k]} ∪ seen) = Y ∪ ({[k]} ∪ seen) ->
  {[k]} ∪ X ∪ seen = {[k]} ∪ Y ∪ seen.
Proof.
  intros E. apply set_eq. intros x.
  assert (Hx : x ∈ X ∪ ({[k]} ∪ seen) <-> x ∈ Y ∪ ({[k]} ∪ seen)) by (by rewrite E).
  rewrite !elem_of_union, !elem_of_singleton in *. tauto.
Qed.

Lemma fresh_keys (seen : gset Py.key) (l : list json) :
  Forall (fun it => is_Some (identity_key it)) (fresh seen l) /\
  NoDup (omap identity_key (fresh seen l)) /\
  (forall k, k ∈ omap identity_key (fresh seen l) -> k ∉ seen) /\
  list_to_set (omap identity_key (fresh seen l)) ∪ seen = keys_of l ∪ seen.
Proof.
  revert seen. induction l as [| it l IH]; intros seen.
  - repeat split; [constructor | constructor | intros k Hk; inversion Hk].
  - cbn [fresh]. unfold keys_of. cbn [omap list_omap].
    destruct (identity_key it) as [k |] eqn:Hk.
    2:{ apply IH. }
    destruct (IH ({[k]} ∪ seen)) as (H1 & H2 & H3 & H4).
    cbn [list_to_set]. fold (keys_of l) in *.
    assert (Hseen : forall k', k' ∈ omap identity_key (fresh ({[k]} ∪ seen) l) ->
                               k' <> k /\ k' ∉ seen).
    { intros k' Hk'. specialize (H3 k' Hk').
      split; [intros -> | intros Hin]; apply H3; apply elem_of_union; [left | right];
        [by apply elem_of_singleton | done]. }
    destruct (bool_decide (k ∈ seen)) eqn:Hin; cbn [app].
    + apply bool_decide_eq_true in Hin. split; [done |]. split; [done |].
      split; [intros k' Hk'; by apply Hseen |].
      by apply union_seen_member.
    + apply bool_decide_eq_false in Hin. cbn [omap list_omap]. rewrite Hk.
      split; [constructor; [by rewrite Hk | done] |].
      split; [constructor; [| done]; intros Hk'; by destruct (Hseen k Hk') |].
      split.
      * intros k' [-> | Hk']%elem_of_cons; [done | by apply Hseen].
      * cbn [list_to_set]. by apply union_seen_new.
Qed.

Lemma fresh_nil_keys (seen : gset Py.key) (l : list json) :
  fresh seen l = [] -> keys_of l ⊆ seen.
Proof.
  intros H. pose proof (fresh_keys seen l) as (_ & _ & _ & H4).
  rewrite H in H4. simpl in H4. set_solver.
Qed.

Lemma advance_deduplicated (a : acc) (l : list json) (tk : json) :
  deduplicated a -> deduplicated (advance a l tk).
Proof.
  intros (Hall & Hnd & Hseen).
  destruct (fresh_keys (seen_ids a) l) as (H1 & H2 & H3 & H4).
  unfold deduplicated; simpl. rewrite omap_app. repeat split.
  - by apply Forall_app.
  - apply NoDup_app. split; [done |]. split; [| done].
    intros k Hk Hk'. apply (H3 k Hk'). rewrite Hseen. by apply elem_of_list_to_set.
  - rewrite list_to_set_app_L, <- Hseen. set_solver.
Qed.

Lemma advance_grows (a : acc) (l : list json) (tk : json) :
  acc_grows a (advance a l tk).
Proof. split; [by eexists | apply advance_deduplicated]. Qed.

(** *** The loop over the items *)

Lemma add_item_keyable (it : json) (a : acc) :
  keyable it = true ->
  add_item it a = (inr tt, advance a [it] (current_theme_token a)).
Proof.
  intros Hk. destruct it as [| | | | | d]; try discriminate Hk.
  assert (Hsnd := add_item_run (JDict d) a).
  assert (Hfst : fst (add_item (JDict d) a) = inr tt).
  { unfold add_item, item_id, bind, lift, ebind, gets, modify, ret. simpl.
    simpl in Hk. fold (field "originalId" d) (field "id" d) in *.
    destruct (Py.truthy (Py.or_ (Py.or_ (field "originalId" d) (field "id" d))
                                (JStr ""))) eqn:Ht; [| reflexivity].
    destruct (Py.or_ (Py.or_ (field "originalId" d) (field "id" d)) (JStr ""));
      try discriminate Hk; try discriminate Ht; simpl;
      try match goal with |- context [bool_decide ?P] => destruct (bool_decide P) end;
      reflexivity. }
  destruct (add_item (JDict d) a) as [r a1]. simpl in Hsnd, Hfst. subst r. f_equal.
  rewrite Hsnd. unfold advance, keys_of. cbn [fresh omap list_omap].
  destruct (identity_key (JDict d)) as [k |];
    [destruct (bool_decide (k ∈ seen_ids a)) eqn:Hin |];
    apply acc_ext; cbn; try reflexivity; rewrite ?app_nil_r; try reflexivity.
  - apply bool_decide_eq_true in Hin.
    apply set_eq. intros x. rewrite !elem_of_union, elem_of_singleton, elem_of_empty.
    split; [tauto | intros [[-> | []] | ?]; done].
  - apply set_eq. intros x. rewrite !elem_of_union, elem_of_singleton, elem_of_empty.
    tauto.
  - by rewrite (left_id_L ∅ (∪)).
Qed.

Lemma add_item_unkeyable (it : json) (a : acc) :
  keyable it = false -> exists e, add_item it a = (inl e, a).
Proof.
  intros Hk. unfold add_item, item_id, bind, lift, ebind, gets, modify, ret.
  destruct it as [| | | | | d]; try (by eexists).
  simpl in *. fold (field "originalId" d) (field "id" d) in *.
  destruct (Py.truthy (Py.or_ (Py.or_ (field "originalId" d) (field "id" d))
                              (JStr ""))) eqn:Ht; [| discriminate Hk].
  destruct (Py.or_ (Py.or_ (field "originalId" d) (field "id" d)) (JStr ""));
    try discriminate Hk; by eexists.
Qed.

Lemma for_each_keyable (l : list json) (a : acc) :
  forallb keyable l = true ->
  for_each l add_item a = (inr tt, advance a l (current_theme_token a)).
Proof.
  revert a. induction l as [| it l IH]; intros a; simpl.
  - intros _. unfold ret. by rewrite advance_nil.
  - intros [Hk Hl]%andb_prop. unfold bind. rewrite (add_item_keyable _ _ Hk).
    rewrite (IH _ Hl). simpl. by rewrite advance_advance.
Qed.

Lemma for_each_unkeyable (l : list json) (a : acc) :
  forallb keyable l = false ->
  exists e a', for_each l add_item a = (inl e, a') /\
               acc_grows a a' /\ same_total a a'.
Proof.
  revert a. induction l as [| it l IH]; intros a; simpl; [discriminate |].
  destruct (keyable it) eqn:Hk; simpl.
  - intros Hl. unfold bind. rewrite (add_item_keyable _ _ Hk).
    destruct (IH (advance a [it] (current_theme_token a)) Hl) as (e & a' & -> & Hg & Ht).
    exists e, a'. split; [reflexivity |]. split.
    + transitivity (advance a [it] (current_theme_token a));
        [apply advance_grows | exact Hg].
    + unfold same_total in *. by rewrite Ht.
  - intros _. destruct (add_item_unkeyable it a Hk) as [e He].
    exists e, a. unfold bind. rewrite He.
    split; [reflexivity |]. split; reflexivity.
Qed.

(** *** The loop over the directives *)

Lemma eq_str_true (v : json) (s : string) : Py.eq_str v s = true -> v = JStr s.
Proof.
  destruct v; try discriminate. simpl. by intros ->%String.eqb_eq.
Qed.

Lemma advance_same (a : acc) :
  set_total (total_from_api a) (advance a [] (current_theme_token a)) = a.
Proof.
  apply acc_ext; simpl; try reflexivity.
  - apply app_nil_r.
  - unfold keys_of. simpl. by rewrite (left_id_L ∅ (∪)).
Qed.

Lemma advance_token (a : acc) (t : json) :
  set_total (total_from_api a) (advance a [] t) = set_token t a.
Proof.
  apply acc_ext; simpl; try reflexivity.
  - apply app_nil_r.
  - unfold keys_of. simpl. by rewrite (left_id_L ∅ (∪)).
Qed.

Lemma get_dict (d : list (string * json)) (k : string) :
  Py.get (JDict d) k = inr (field k d).
Proof. reflexivity. Qed.

Lemma get_default_dict (d : list (string * json)) (k : string) (x : json) :
  Py.get_default (JDict d) k x = inr (field_or k x d).
Proof. reflexivity. Qed.

Lemma get_default_other (v : json) (k : string) (x : json) :
  (forall d, v <> JDict d) -> exists e, Py.get_default v k x = inl e.
Proof. intros H. destruct v; try (by eexists). by destruct (H d). Qed.

Lemma bind_lift_inr {S A B} (x : A) (k : A -> SE S B) (s : S) :
  bind (lift (inr x)) k s = k x s.
Proof. reflexivity. Qed.

Lemma bind_lift_inl {S A B} (e : exn) (k : A -> SE S B) (s : S) :
  bind (lift (inl e)) k s = (inl e, s).
Proof. reflexivity. Qed.

Lemma bind_ret {S A B} (x : A) (k : A -> SE S B) (s : S) :
  bind (ret x) k s = k x s.
Proof. reflexivity. Qed.

Lemma bind_gets {S A B} (f : S -> A) (k : A -> SE S B) (s : S) :
  bind (gets f) k s = k (f s) s.
Proof. reflexivity. Qed.

Lemma bind_modify {S B} (f : S -> S) (k : unit -> SE S B) (s : S) :
  bind (modify f) k s = k tt (f s).
Proof. reflexivity. Qed.

(** the items part of a results directive whose results are the dict
    [rs] *)
Lemma items_read (rs : list (string * json)) (a0 : acc) :
  match Py.iter (field_or "items" (JList []) rs) with
  | inr l =>
      if forallb keyable l then
        (let* its := lift (Py.get_default (JDict rs) "items" (JList [])) in
         let* l := lift (Py.iter its) in for_each l add_item) a0
        = (inr tt, advance a0 l (current_theme_token a0))
      else exists e a',
        (let* its := lift (Py.get_default (JDict rs) "items" (JList [])) in
         let* l := lift (Py.iter its) in for_each l add_item) a0 = (inl e, a')
  | inl _ => exists e a',
        (let* its := lift (Py.get_default (JDict rs) "items" (JList [])) in
         let* l := lift (Py.iter its) in for_each l add_item) a0 = (inl e, a')
  end.
Proof.
  rewrite get_default_dict, bind_lift_inr.
  destruct (Py.iter (field_or "items" (JList []) rs)) as [e | l].
  - rewrite bind_lift_inl. by eexists _, _.
  - rewrite bind_lift_inr. destruct (forallb keyable l) eqn:Hk.
    + by apply for_each_keyable.
    + destruct (for_each_unkeyable l a0 Hk) as (e & a' & He & _).
      by exists e, a'.
Qed.

(** a well-formed directive is read as the specification says, and a
    malformed one raises *)
Lemma process_cmd_reads (first : bool) (cmd : json) (a : acc) :
  match directive_items cmd with
  | Some l =>
      process_cmd first cmd a =
        (inr tt,
         set_total (if first then directive_total (total_from_api a) cmd
                    else total_from_api a)
           (advance a l (directive_token (current_theme_token a) cmd)))
  | None => exists e a', process_cmd first cmd a = (inl e, a')
  end.
Proof.
  destruct cmd as [| | | | | d]; try (by eexists _, _).
  unfold directive_items, directive_token, directive_total.
  remember (process_cmd first (JDict d) a) as run eqn:Hrun.
  unfold process_cmd in Hrun. rewrite get_dict, bind_lift_inr in Hrun.
  destruct (Py.eq_str (field "command" d) "settings") eqn:Hs.
  - assert (Hr : Py.eq_str (field "command" d) "recherche_tournois_update" = false)
      by (by rewrite (eq_str_true _ _ Hs)).
    rewrite Hr. rewrite Hr, get_default_dict in Hrun. unfold bind at 1 in Hrun.
    rewrite bind_lift_inr in Hrun.
    destruct (field_or "settings" (JDict []) d) as [| | | | | st];
      try (subst run; by eexists _, _).
    rewrite get_default_dict, bind_lift_inr, bind_gets in Hrun.
    destruct (field_or "ajaxPageState" (JDict []) st) as [| | | | | ps];
      try (subst run; by eexists _, _).
    rewrite get_default_dict, bind_lift_inr in Hrun. unfold modify, ret in Hrun.
    subst run. destruct first; by rewrite advance_token.
  - rewrite bind_ret in Hrun.
    destruct (Py.eq_str (field "command" d) "recherche_tournois_update") eqn:Hr.
    2:{ subst run. unfold ret. destruct first; by rewrite advance_same. }
    rewrite get_default_dict, bind_lift_inr in Hrun.
    destruct (field_or "results" (JDict []) d) as [| | | | | rs];
      try (subst run; destruct first; by eexists _, _).
    destruct first.
    + unfold bind at 1 in Hrun.
      rewrite get_default_dict, bind_lift_inr in Hrun. unfold modify at 1 in Hrun.
      pose proof (items_read rs (set_total (field_or "nb_results" (JInt 0) rs) a))
        as Hitems.
      destruct (Py.iter (field_or "items" (JList []) rs)) as [e | l];
        [by subst run |].
      destruct (forallb keyable l); [| by subst run].
      rewrite Hitems in Hrun. by subst run.
    + rewrite bind_ret in Hrun. pose proof (items_read rs a) as Hitems.
      destruct (Py.iter (field_or "items" (JList []) rs)) as [e | l];
        [by subst run |].
      destruct (forallb keyable l); [| by subst run].
      rewrite Hitems in Hrun. by subst run.
Qed.

(** a response that can be read in full is read as the specification
    says, and any other raises *)
Lemma for_each_cmds_reads (first : bool) (cmds : list json) (a : acc) :
  match gather cmds with
  | Some l =>
      for_each cmds (process_cmd first) a =
        (inr tt,
         set_total (if first then fold_left directive_total cmds (total_from_api a)
                    else total_from_api a)
           (advance a l (fold_left directive_token cmds (current_theme_token a))))
  | None => exists e a', for_each cmds (process_cmd first) a = (inl e, a')
  end.
Proof.
  revert a. induction cmds as [| cmd cmds IH]; intros a.
  - cbn [gather for_each fold_left]. unfold ret.
    destruct first; by rewrite advance_same.
  - cbn [gather for_each fold_left].
    pose proof (process_cmd_reads first cmd a) as Hcmd.
    destruct (directive_items cmd) as [l |].
    2:{ destruct Hcmd as (e & a' & He). exists e, a'. unfold bind. by rewrite He. }
    remember ((process_cmd first cmd;;; for_each cmds (process_cmd first)) a)
      as run eqn:Hrun.
    unfold bind in Hrun. rewrite Hcmd in Hrun.
    match type of Hrun with context [for_each cmds _ ?a1] => specialize (IH a1) end.
    destruct (gather cmds) as [ls |]; [| by subst run].
    rewrite IH in Hrun. subst run. f_equal. apply acc_ext; simpl.
    + by rewrite fresh_app, app_assoc.
    + rewrite keys_of_app. by rewrite (assoc_L (∪)).
    + by destruct first.
    + reflexivity.
Qed.

Lemma process_page_reads (first : bool) (body : option json) (a : acc) :
  match served body with
  | Some l =>
      process_page first body a =
        (inr tt,
         set_total (if first
                    then match directives body with
                         | Some cmds => fold_left directive_total cmds (total_from_api a)
                         | None => total_from_api a
                         end
                    else total_from_api a)
           (advance a l (page_token (current_theme_token a) body)))
  | None => exists e a', process_page first body a = (inl e, a')
  end.
Proof.
  unfold served, page_token, directives, process_page.
  destruct body as [data |]; [| by eexists _, _].
  destruct (Py.iter data) as [e | cmds]; [by eexists _, _ |].
  rewrite bind_lift_inr. apply for_each_cmds_reads.
Qed.

Lemma int_ge_numeric (n : Z) (v : json) :
  Py.int_ge n v =
    match numeric v with
    | Some t => inr (t <=? n)
    | None => inl (TypeError "'>=' not supported between instances")
    end.
Proof. by destruct v. Qed.
(** ** Traces *)

#[local] Instance appends_refl (P : request -> Prop) : Reflexive (@appends W P).
Proof. intros s. exists []. by rewrite app_nil_r. Qed.

#[local] Instance appends_trans (P : request -> Prop) : Transitive (@appends W P).
Proof.
  intros s1 s2 s3 (t1 & H1 & F1) (t2 & H2 & F2). exists (t1 ++ t2). split.
  - by rewrite H2, H1, <- app_assoc.
  - by apply Forall_app.
Qed.


Lemma call_run (r : request) (s : state W) :
  call r s =
    match send (world s) r with
    | (inl msg, w) => (inl (Exception msg), sent r w s)
    | (inr resp, w) => (inr resp, sent r w s)
    end.
Proof. unfold call, sent. by destruct (send (world s) r) as [[msg | resp] w]. Qed.

Lemma call_appends (P : request -> Prop) (r : request) :
  P r -> stepwise (appends P) (call r).
Proof.
  intros HP s x s'. rewrite call_run.
  destruct (send (world s) r) as [[msg | resp] w]; intros [= <- <-];
    exists [r]; split; auto.
Qed.

Lemma launch_appends (P : request -> Prop) :
  P LaunchBrowser -> stepwise (appends P) launch.
Proof.
  intros HP s x s'. unfold launch.
  destruct (browse (world s)) as [[msg | cookies] w]; intros [= <- <-];
    exists [LaunchBrowser]; split; auto.
Qed.

Lemma with_files_appends (P : request -> Prop) (f : store -> store) (s : state W) :
  appends P s (with_files f s).
Proof. exists []. simpl. by rewrite app_nil_r. Qed.

(** closes the goals of a trace argument about requests of one kind *)
Ltac trace_leaf :=
  first
    [ apply call_appends; reflexivity
    | apply launch_appends; reflexivity
    | apply with_files_appends
    | unfold raise_for_status, resp_json ].

Lemma negotiate_appends_get (n : nat) ck ct t html :
  stepwise (appends (fun r => is_get r = true)) (negotiate n ck ct t html).
Proof.
  revert ct t html. induction n as [| n IH]; intros ct t html; simpl.
  - apply stepwise_raise; typeclasses eauto.
  - repeat stepwise_step ltac:(first [apply IH | trace_leaf]).
Qed.

Lemma get_form_state_appends_get ck :
  stepwise (appends (fun r => is_get r = true)) (get_form_state ck).
Proof.
  unfold get_form_state.
  repeat first
    [ apply negotiate_appends_get
    | stepwise_step ltac:(trace_leaf) ].
Qed.

(** ** Pagination (C4) *)

Lemma length_omap_total {A B} (f : A -> option B) (l : list A) :
  Forall (fun x => is_Some (f x)) l -> length (omap f l) = length l.
Proof.
  induction 1 as [| x l [y Hy] _ IH]; [done |].
  change (omap f (x :: l)) with
    (match f x with Some y => y :: omap f l | None => omap f l end).
  rewrite Hy. simpl. by rewrite IH.
Qed.

Lemma deduplicated_size (a : acc) :
  deduplicated a -> size (seen_ids a) = length (all_items a).
Proof.
  intros (Hall & Hnd & Hseen). rewrite Hseen, size_list_to_set by done.
  by apply length_omap_total.
Qed.

Lemma advance_set_total (a : acc) (l : list json) (tk : json) :
  set_total (total_from_api a) (advance a l tk) = advance a l tk.
Proof. by apply acc_ext. Qed.

(** The loop of the source is the pagination of the specification: from
    de-duplicated locals with a numeric total it returns, and relates
    its inputs and outputs as [paginated] does. *)
Lemma paginate_paginated ck qr (pages : list nat) (a : acc) (s : state W) t :
  deduplicated a -> numeric (total_from_api a) = Some t ->
  exists log a' s', paginate ck qr pages a s = (inr a', s') /\
                    paginated ck qr pages a s log a' s'.
Proof.
  revert a s. induction pages as [| p ps IH]; intros a s Hd Ht.
  - exists [], a, s. split; [reflexivity | constructor].
  - cbn [paginate]. rewrite int_ge_numeric, Ht, bind_lift_inr.
    rewrite (deduplicated_size a Hd).
    destruct (Z.leb_spec t (Z.of_nat (length (all_items a)))) as [Hge | Hlt].
    { exists [], a, s. split; [reflexivity |]. by eapply pg_total. }
    unfold bind at 1, page_step, try_except, bind at 1. rewrite call_run.
    destruct (send (world s) (page_request ck qr p a)) as [[msg | resp] w] eqn:Es.
    { exists [], a, (sent (page_request ck qr p a) w s). split; [reflexivity |].
      by eapply pg_request_failed. }
    unfold bind at 1, raise_for_status.
    destruct (is_success resp) eqn:Eok; simpl.
    2:{ exists [], a, (sent (page_request ck qr p a) w s). split; [reflexivity |].
        by eapply pg_status_failed. }
    pose proof (process_page_reads false (body resp) a) as Hread.
    destruct (served (body resp)) as [l |] eqn:Hserved.
    2:{ destruct Hread as (e & a' & Hp). rewrite Hp. simpl.
        exists [], a', (sent (page_request ck qr p a) w s). split; [reflexivity |].
        eapply pg_page_failed; eauto.
        - exact (process_page_grows _ _ _ _ _ Hp).
        - exact (process_page_same_total _ _ _ _ Hp). }
    rewrite advance_set_total in Hread. rewrite Hread.
    set (a1 := advance a l (page_token (current_theme_token a) (body resp))).
    assert (Hlen : (length (all_items a1) - length (all_items a) =? 0)%nat
                   = match fresh (seen_ids a) l with [] => true | _ => false end).
    { subst a1. cbn [all_items advance]. rewrite length_app.
      destruct (fresh (seen_ids a) l) as [| it new]; cbn [length].
      - by rewrite Nat.add_0_r, Nat.sub_diag.
      - apply Nat.eqb_neq. lia. }
    unfold ret at 1. cbn [fst snd]. rewrite Hlen.
    destruct (fresh (seen_ids a) l) as [| it new] eqn:Hfresh; cbn [negb].
    { exists [l], a1, (sent (page_request ck qr p a) w s). split; [reflexivity |].
      eapply pg_no_new; eauto. }
    destruct (IH a1 (sent (page_request ck qr p a) w s))
      as (log & a'' & s'' & Hrun & Hrel).
    { by apply advance_deduplicated. }
    { exact Ht. }
    exists (l :: log), a'', s''. split; [exact Hrun |].
    eapply pg_next; eauto. rewrite Hfresh. discriminate.
Qed.

(** without a numeric total the loop raises before it submits anything *)
Lemma paginate_not_numeric ck qr p ps (a : acc) (s : state W) :
  numeric (total_from_api a) = None ->
  paginate ck qr (p :: ps) a s
    = (inl (TypeError "'>=' not supported between instances"), s).
Proof. intros Hn. cbn [paginate]. by rewrite int_ge_numeric, Hn. Qed.

Lemma paginated_grows ck qr pages a s log a' s' :
  paginated ck qr pages a s log a' s' -> acc_grows a a' /\ same_total a a'.
Proof.
  induction 1 as [ | | | | | |
                   p ps a s t resp w l log a'' s'' Hnum Hlt Hsend Hok Hserved Hf Hrel
                     [IH1 IH2]];
    try (split; reflexivity).
  - by split.
  - split; [apply advance_grows | reflexivity].
  - split.
    + etransitivity; [apply advance_grows | exact IH1].
    + etransitivity; [| exact IH2]. reflexivity.
Qed.

(** the pages submitted are the first [k] of those left, in order, each
    once, and nothing else is sent; the pages read in full are among
    them *)
Lemma paginated_pages ck qr pages a s log a' s' :
  paginated ck qr pages a s log a' s' ->
  exists k, (k <= length pages)%nat /\ (length log <= k)%nat /\
    exists tr, trace s' = trace s ++ tr /\
               Forall (fun r => is_ajax r = true) tr /\
               ajax_pages tr = take k pages.
Proof.
  induction 1 as [ | | | | | |
                   p ps a s t resp w l log a'' s'' Hnum Hlt Hsend Hok Hserved Hf Hrel IH].
  1,2: exists 0%nat; split; [simpl; lia |]; split; [simpl; lia |]; exists [];
       rewrite app_nil_r; repeat split; constructor.
  1-4: exists 1%nat; split; [simpl; lia |]; split; [simpl; lia |];
       eexists [_]; repeat split; repeat constructor.
  destruct IH as (k & Hk & Hlog & tr & Htr & Hall & Hpages).
  exists (S k). split; [simpl; lia |]. split; [simpl; lia |].
  exists (page_request ck qr p a :: tr). split; [| split].
  - rewrite Htr. simpl. by rewrite <- app_assoc.
  - by constructor.
  - simpl. by rewrite Hpages.
Qed.

Lemma grows_seen (a a' : acc) :
  deduplicated a -> acc_grows a a' -> seen_ids a ⊆ seen_ids a'.
Proof.
  intros Hd [[ext Hext] Hd']. destruct (Hd' Hd) as (_ & _ & Hs').
  destruct Hd as (_ & _ & Hs). rewrite Hs, Hs', Hext, omap_app, list_to_set_app_L.
  apply union_subseteq_l.
Qed.

(** what pagination collects: the new items of the pages read in full,
    in order, and after them whatever a last page that could not be read
    in full had given before it failed; and the keys of every page read
    in full are keys of the collection *)
Lemma paginated_items ck qr pages a s log a' s' :
  paginated ck qr pages a s log a' s' -> deduplicated a ->
  (exists ext, all_items a' = all_items a ++ fresh (seen_ids a) (concat log) ++ ext) /\
  seen_ids a ⊆ seen_ids a' /\
  (forall l, l ∈ log -> keys_of l ⊆ seen_ids a').
Proof.
  induction 1 as [ | | |
                 | p ps a s t resp w a' Hnum Hlt Hsend Hok Hserved Hg Ht
                 | p ps a s t resp w l Hnum Hlt Hsend Hok Hserved Hf
                 | p ps a s t resp w l log a'' s'' Hnum Hlt Hsend Hok Hserved Hf Hrel IH];
    intros Hd.
  1-4: (split; [exists []; by rewrite !app_nil_r |]);
       (split; [done | intros l Hl; by apply elem_of_nil in Hl]).
  - split; [| split].
    + destruct Hg as [[ext Hext] _]. exists ext. by rewrite Hext.
    + by apply grows_seen.
    + intros l Hl. by apply elem_of_nil in Hl.
  - split; [| split].
    + exists []. cbn [concat all_items advance]. by rewrite !app_nil_r.
    + apply union_subseteq_r.
    + intros l0 ->%list_elem_of_singleton. apply union_subseteq_l.
  - destruct (IH (advance_deduplicated _ _ _ Hd)) as ([ext Hext] & Hsub & Hlog).
    cbn [all_items seen_ids advance] in Hext, Hsub.
    split; [| split].
    + exists ext. rewrite Hext. cbn [concat]. rewrite fresh_app.
      by rewrite <- !app_assoc.
    + etransitivity; [| exact Hsub]. apply union_subseteq_r.
    + intros l0 [-> | Hl0]%elem_of_cons; [| by apply Hlog].
      etransitivity; [| exact Hsub]. apply union_subseteq_l.
Qed.

Lemma deduplicated_init (tk : string) : deduplicated (init_acc tk).
Proof. repeat split; simpl; [constructor | constructor]. Qed.

Lemma ajax_pages_app (t1 t2 : list request) :
  ajax_pages (t1 ++ t2) = ajax_pages t1 ++ ajax_pages t2.
Proof. unfold ajax_pages. apply omap_app. Qed.

Lemma ajax_pages_gets (tr : list request) :
  Forall (fun r => is_get r = true) tr -> ajax_pages tr = [].
Proof.
  induction 1 as [| r tr Hr _ IH]; [done |].
  destruct r; try discriminate Hr. exact IH.
Qed.

(** [fetch_web_ajax] once the form state has been negotiated *)
Lemma fetch_web_ajax_run ck qr (s s1 : state W) tokens :
  get_form_state ck s = (inr tokens, s1) ->
  fetch_web_ajax ck qr s =
    match send (world s1) (page0_request ck qr tokens) with
    | (inl msg, w) => (inl (Exception msg), sent (page0_request ck qr tokens) w s1)
    | (inr resp, w) =>
        let s0 := sent (page0_request ck qr tokens) w s1 in
        if is_success resp then
          match paginate ck qr later_pages
                  (snd (process_page true (body resp) (init_acc (snd tokens)))) s0
          with
          | (inr a, s') => (inr (web_result a), s')
          | (inl e, s') => (inl e, s')
          end
        else (inl (Exception ("HTTPStatusError: " +:+ pretty (status_code resp))), s0)
    end.
Proof.
  intros Hneg. unfold fetch_web_ajax, bind at 1. rewrite Hneg.
  unfold bind at 1. rewrite call_run.
  destruct (send (world s1) (page0_request ck qr tokens)) as [[msg | resp] w];
    [reflexivity |].
  cbv zeta. unfold bind at 1, raise_for_status.
  destruct (is_success resp); [| reflexivity].
  unfold ret at 1. cbv beta iota. unfold bind at 1.
  match goal with
  | |- context [paginate ?c ?x ?ps ?a ?st] =>
      destruct (paginate c x ps a st) as [[e | a'] s']
  end; reflexivity.
Qed.

(** page 0, when it can be read in full, gives the new items it serves
    and the total it reports *)
Lemma page0_reads (tk : string) (body : option json) (l0 : list json) :
  served body = Some l0 ->
  process_page true body (init_acc tk)
    = (inr tt,
       set_total (reported_total body)
         (advance (init_acc tk) l0 (page_token (JStr tk) body))).
Proof.
  intros Hs. pose proof (process_page_reads true body (init_acc tk)) as H.
  rewrite Hs in H. rewrite H. unfold reported_total. cbn [total_from_api init_acc].
  unfold served in Hs. by destruct (directives body).
Qed.

(** the web fetch once the form state is negotiated and page 0 has come
    back with a success status and a numeric total *)
Lemma fetch_web_ajax_reads ck qr (s s1 : state W) tokens resp0 w0 t :
  get_form_state ck s = (inr tokens, s1) ->
  send (world s1) (page0_request ck qr tokens) = (inr resp0, w0) ->
  is_success resp0 = true ->
  numeric (total_from_api
             (snd (process_page true (body resp0) (init_acc (snd tokens)))))
    = Some t ->
  deduplicated (snd (process_page true (body resp0) (init_acc (snd tokens)))) /\
  exists log a' s',
    fetch_web_ajax ck qr s = (inr (web_result a'), s') /\
    paginated ck qr (seq 1 9)
      (snd (process_page true (body resp0) (init_acc (snd tokens))))
      (sent (page0_request ck qr tokens) w0 s1) log a' s'.
Proof.
  intros Hneg Hsend Hok Htot.
  set (a0 := snd (process_page true (body resp0) (init_acc (snd tokens)))) in *.
  set (s0 := sent (page0_request ck qr tokens) w0 s1).
  assert (Hd0 : deduplicated a0).
  { destruct (process_page true (body resp0) (init_acc (snd tokens)))
      as [r0 a0'] eqn:Ep.
    apply (process_page_grows _ _ _ _ _ Ep), deduplicated_init. }
  split; [exact Hd0 |].
  destruct (paginate_paginated ck qr (seq 1 9) a0 s0 t Hd0 Htot)
    as (log & a' & s' & Hrun & Hrel).
  exists log, a', s'. split; [| exact Hrel].
  rewrite (fetch_web_ajax_run _ _ _ _ _ Hneg), Hsend. cbv zeta. rewrite Hok.
  fold a0 s0. unfold later_pages. by rewrite Hrun.
Qed.

(** C4. Once the form state is negotiated and page 0 has come back with
    a success status: a page 0 that can be read in full gives the new
    items it serves and the total it reports.  With a numeric total the
    web fetch returns, and what it returns is related to the state after
    page 0 by the pagination of the specification over pages 1 to 9
    (stop at the total, at a page without new items, at the cap, or at a
    failing page, whose predecessors' items are kept); the pages it
    submits are 0 to [k] in order for some [k] of at most 9; the items
    returned are those of page 0, then the new items of the later pages
    read in full, in order, then what a last failing page had given; and
    the result reports their number and the total of page 0.  With a
    total that is not a number nothing of this happens: the comparison
    with the count raises before page 1 is submitted. *)
Theorem web_pagination ck qr (s s1 : state W) tokens resp0 w0 :
  get_form_state ck s = (inr tokens, s1) ->
  send (world s1) (page0_request ck qr tokens) = (inr resp0, w0) ->
  is_success resp0 = true ->
  (forall l0, served (body resp0) = Some l0 ->
     all_items (snd (process_page true (body resp0) (init_acc (snd tokens))))
       = fresh ∅ l0 /\
     total_from_api (snd (process_page true (body resp0) (init_acc (snd tokens))))
       = reported_total (body resp0)) /\
  match numeric (total_from_api
                   (snd (process_page true (body resp0) (init_acc (snd tokens)))))
  with
  | Some t =>
      exists log a' s',
        fetch_web_ajax ck qr s = (inr (web_result a'), s') /\
        paginated ck qr (seq 1 9)
          (snd (process_page true (body resp0) (init_acc (snd tokens))))
          (sent (page0_request ck qr tokens) w0 s1) log a' s' /\
        (exists k, (k <= 9)%nat /\ (length log <= k)%nat /\
           ajax_pages (trace s') = ajax_pages (trace s) ++ seq 0 (S k)) /\
        (exists ext,
           items (web_result a') =
             all_items (snd (process_page true (body resp0) (init_acc (snd tokens))))
             ++ fresh (seen_ids (snd (process_page true (body resp0)
                                        (init_acc (snd tokens)))))
                      (concat log)
             ++ ext) /\
        count (web_result a') = length (items (web_result a')) /\
        total_api (web_result a')
          = Some (total_from_api
                    (snd (process_page true (body resp0) (init_acc (snd tokens)))))
  | None =>
      fetch_web_ajax ck qr s
        = (inl (TypeError "'>=' not supported between instances"),
           sent (page0_request ck qr tokens) w0 s1)
  end.
Proof.
  intros Hneg Hsend Hok. split.
  { intros l0 Hl0. rewrite (page0_reads _ _ _ Hl0). by split. }
  destruct (numeric (total_from_api
              (snd (process_page true (body resp0) (init_acc (snd tokens))))))
    as [t |] eqn:Htot.
  2:{ rewrite (fetch_web_ajax_run _ _ _ _ _ Hneg), Hsend. cbv zeta. rewrite Hok.
      unfold later_pages. cbn [seq]. by rewrite (paginate_not_numeric _ _ _ _ _ _ Htot). }
  destruct (fetch_web_ajax_reads _ _ _ _ _ _ _ _ Hneg Hsend Hok Htot)
    as (Hd0 & log & a' & s' & Hrun & Hrel).
  exists log, a', s'. split; [exact Hrun |]. split; [exact Hrel |].
  destruct (paginated_grows _ _ _ _ _ _ _ _ Hrel) as [_ Hsame].
  destruct (paginated_pages _ _ _ _ _ _ _ _ Hrel)
    as (k & Hk & Hlog & tr & Htr & _ & Hp).
  destruct (paginated_items _ _ _ _ _ _ _ _ Hrel Hd0) as ([ext Hext] & _ & _).
  destruct (get_form_state_appends_get _ _ _ _ Hneg) as (tg & Htg & Hgets).
  split; [| split; [| split]].
  - exists k. split; [by rewrite length_seq in Hk |]. split; [exact Hlog |].
    rewrite Htr. unfold sent. simpl. rewrite Htg.
    rewrite !ajax_pages_app, (ajax_pages_gets _ Hgets), Hp, take_seq.
    rewrite length_seq in Hk. rewrite Nat.min_l by done.
    simpl. by rewrite app_nil_r, <- app_assoc.
  - exists ext. exact Hext.
  - reflexivity.
  - simpl. unfold same_total in Hsame. by rewrite Hsame.
Qed.

(** ** De-duplication across pages (C5) *)



(** the loop stops without a request once the count has reached the
    total *)
Lemma paginate_enough ck qr p n (a : acc) (s : state W) :
  Py.int_ge (Z.of_nat (size (seen_ids a))) (total_from_api a) = inr true ->
  paginate ck qr (seq p (S n)) a s = (inr a, s).
Proof. intros Hge. simpl. unfold bind, lift. by rewrite Hge. Qed.









(** ** The caller of the sources: cache and error surface *)

Lemma search_tenup_hit now qr (c c' : cache_t) (s : state W) data :
  cache_get now (cache_key qr) c = (Some data, c') ->
  search_tenup now qr (c, s) = (inr data, (c', s)).
Proof.
  intros Hget. unfold search_tenup, bind at 1. simpl. by rewrite Hget.
Qed.

Lemma search_tenup_miss now qr (c : cache_t) (s : state W) :
  fst (cache_get now (cache_key qr) c) = None ->
  search_tenup now qr (c, s) =
    let c1 := cache_evict now (snd (cache_get now (cache_key qr) c)) in
    match _perform_search qr s with
    | (inr r, s') => (inr r, (cache_put now (cache_key qr) r c1, s'))
    | (inl e, s') =>
        (inl (HTTPException 500 ("Internal Server Error: " +:+ str_exn e)), (c1, s'))
    end.
Proof.
  intros Hmiss. unfold search_tenup, bind at 1. cbn [fst snd].
  destruct (cache_get now (cache_key qr) c) as [hit c0]. simpl in Hmiss. subst hit.
  cbv zeta. unfold bind at 1, modify at 1, try_except, bind at 1. cbn [fst snd].
  destruct (_perform_search qr s) as [[e | r] s']; reflexivity.
Qed.

(** every error [search_tenup] surfaces is an HTTPException of status
    500 *)
Lemma search_tenup_raises_500 now qr (c : cache_t) (s : state W) e cs' :
  search_tenup now qr (c, s) = (inl e, cs') ->
  exists cause, e = HTTPException 500 ("Internal Server Error: " +:+ cause).
Proof.
  destruct (cache_get now (cache_key qr) c) as [[data |] c0] eqn:Hget.
  - rewrite (search_tenup_hit _ _ _ _ _ _ Hget). discriminate.
  - rewrite search_tenup_miss by (by rewrite Hget). cbv zeta.
    destruct (_perform_search qr s) as [[e' | r] s']; [| discriminate].
    intros [= <- _]. by eexists.
Qed.

Lemma perform_search_no_token qr (s : state W) :
  Py.truthy (load_token_file (files s)) = false ->
  _perform_search qr s = after_mobile (load_cookie_header (files s)) qr s.
Proof.
  intros Hno. unfold _perform_search, bind at 1, gets at 1. cbv zeta.
  rewrite Hno. reflexivity.
Qed.

Lemma web_tier_ok ck qr (s s' : state W) r :
  fetch_web_ajax ck (web_query qr) s = (inr r, s') ->
  web_tier ck qr s = (inr r, s').
Proof. intros Hrun. unfold web_tier, try_except. by rewrite Hrun. Qed.

(** ** A page 0 without results (C10) *)

#[local] Instance same_items_refl : Reflexive same_items.
Proof. by intros a. Qed.

#[local] Instance same_items_trans : Transitive same_items.
Proof.
  unfold same_items. intros a b c (H1 & H2 & H3) (H4 & H5 & H6).
  repeat split; congruence.
Qed.

Lemma process_cmd_no_results (first : bool) (cmd : json) :
  is_results_update cmd = false ->
  stepwise same_items (process_cmd first cmd).
Proof.
  unfold is_results_update. intros Hno a r a'.
  unfold process_cmd, bind at 1, lift at 1.
  destruct (Py.get cmd "command") as [e | c].
  { intros [= <- <-]. reflexivity. }
  rewrite Hno. revert a r a'.
  change (stepwise same_items
            ((if Py.eq_str c "settings"
              then
                let* st := lift (Py.get_default cmd "settings" (JDict [])) in
                let* ps := lift (Py.get_default st "ajaxPageState" (JDict [])) in
                let* cur := gets current_theme_token in
                let* t := lift (Py.get_default ps "theme_token" cur) in
                modify (set_token t)
              else ret tt) ;;; ret tt)).
  repeat stepwise_step ltac:(by repeat split).
Qed.

Lemma process_page_no_results (first : bool) (body : option json) :
  no_results_update body -> stepwise same_items (process_page first body).
Proof.
  unfold no_results_update, process_page. destruct body as [data |].
  - destruct (Py.iter data) as [e | cmds].
    + intros _ a r a'. unfold bind, lift. intros [= <- <-]. reflexivity.
    + intros Hall a r a'. unfold bind at 1, lift at 1. revert a r a'.
      apply stepwise_for_each; [typeclasses eauto | typeclasses eauto |].
      intros cmd Hin. apply process_cmd_no_results.
      rewrite Forall_forall in Hall. by apply Hall.
  - intros _. apply stepwise_raise; typeclasses eauto.
Qed.

(** C10. With the form state negotiated and page 0 answered: if the
    status is a success and the body has no directive carrying results
    (it does not parse, cannot be iterated, or holds no results update),
    the web fetch returns the empty result (count 0, no items, total 0)
    having submitted page 0 only; if the status is not a success the fetch
    raises. In a search without mobile credentials whose cookie header is
    the one of the store, that empty result is what [search_tenup] returns
    on a cache miss, and it is stored in the cache under the key of the
    query for 3600 seconds. *)
Theorem page0_without_results ck qr (s s1 : state W) tokens resp w :
  get_form_state ck s = (inr tokens, s1) ->
  send (world s1) (page0_request ck (web_query qr) tokens) = (inr resp, w) ->
  (is_success resp = true -> no_results_update (body resp) ->
   fetch_web_ajax ck (web_query qr) s
     = (inr empty_web_result, sent (page0_request ck (web_query qr) tokens) w s1) /\
   forall now (c : cache_t),
     Py.truthy (load_token_file (files s)) = false ->
     load_cookie_header (files s) = Some ck -> ck <> "" ->
     fst (cache_get now (cache_key qr) c) = None ->
     exists c',
       search_tenup now qr (c, s)
         = (inr empty_web_result,
            (c', sent (page0_request ck (web_query qr) tokens) w s1)) /\
       c' !! cache_key qr = Some (empty_web_result, (now + CACHE_TTL)%Q)) /\
  (is_success resp = false ->
   fetch_web_ajax ck (web_query qr) s
     = (inl (Exception ("HTTPStatusError: " +:+ pretty (status_code resp))),
        sent (page0_request ck (web_query qr) tokens) w s1)).
Proof.
  intros Hneg Hsend. split.
  - intros Hok Hno.
    assert (Hfetch : fetch_web_ajax ck (web_query qr) s
                     = (inr empty_web_result,
                        sent (page0_request ck (web_query qr) tokens) w s1)).
    { rewrite (fetch_web_ajax_run _ _ _ _ _ Hneg), Hsend. cbv zeta. rewrite Hok.
      destruct (process_page true (body resp) (init_acc (snd tokens)))
        as [r0 a0] eqn:Ep.
      destruct (process_page_no_results _ _ Hno _ _ _ Ep) as (Hitems & Hseen & Htot).
      change (snd (r0, a0)) with a0.
      unfold later_pages. rewrite paginate_enough.
      - unfold web_result, empty_web_result. rewrite Hitems, Htot. reflexivity.
      - rewrite Hseen, Htot. reflexivity. }
    split; [exact Hfetch |].
    intros now c Hnotok Hck Hne Hmiss.
    eexists. split.
    + rewrite search_tenup_miss by exact Hmiss. cbv zeta.
      rewrite (perform_search_no_token _ _ Hnotok), Hck.
      destruct ck as [| a0 ck]; [done |].
      unfold after_mobile. rewrite (web_tier_ok _ _ _ _ _ Hfetch). reflexivity.
    + unfold cache_put. apply lookup_insert_eq.
  - intros Hko.
    rewrite (fetch_web_ajax_run _ _ _ _ _ Hneg), Hsend. cbv zeta.
    by rewrite Hko.
Qed.

(** ** The mobile tier (C1) *)

#[local] Instance unchanged_refl {S} : Reflexive (@unchanged S).
Proof. by intros s. Qed.

#[local] Instance unchanged_trans {S} : Transitive (@unchanged S).
Proof. unfold unchanged. intros a b c H1 H2. congruence. Qed.

(** a call followed by steps that leave the state alone *)
Lemma call_then_pure {A} (r : request) (k : response -> M A) (s : state W) x s' :
  (forall resp, stepwise unchanged (k resp)) ->
  bind (call r) k s = (x, s') ->
  exists w, s' = sent r w s.
Proof.
  intros Hk. unfold bind. rewrite call_run.
  destruct (send (world s) r) as [[msg | resp] w].
  - intros [= <- <-]. by exists w.
  - intros Hrun. exists w. exact (Hk _ _ _ _ Hrun).
Qed.

Lemma fetch_mobile_api_sent token qr (s : state W) x s' :
  fetch_mobile_api token qr s = (x, s') ->
  exists w, s' = sent (GetMobile token qr) w s.
Proof.
  apply call_then_pure. intros resp.
  unfold raise_for_status, resp_json.
  repeat stepwise_step ltac:(fail).
Qed.

Lemma refresh_access_token_sent rt (s : state W) x s' :
  refresh_access_token rt s = (x, s') ->
  exists w, s' = sent (PostToken rt) w s.
Proof.
  apply call_then_pure. intros resp.
  unfold raise_for_status, resp_json.
  repeat stepwise_step ltac:(fail).
Qed.

(** what a refresh-and-retry cycle sends and writes *)
Lemma mobile_refresh_retry_trace rt qr (s1 : state W) x s2 :
  mobile_refresh_retry rt qr s1 = (x, s2) ->
  (exists e, x = inl e /\ trace s2 = trace s1 ++ [PostToken rt]) \/
  (exists new_tok access',
     Py.get new_tok "access_token" = inr access' /\
     trace s2 = trace s1 ++ [PostToken rt; GetMobile access' qr] /\
     files s2 = save_token_file new_tok (files s1)).
Proof.
  unfold mobile_refresh_retry, bind at 1.
  destruct (refresh_access_token rt s1) as [[e | new_tok] sa] eqn:Er.
  { intros [= <- <-]. left. exists e. split; [done |].
    destruct (refresh_access_token_sent _ _ _ _ Er) as [w ->]. reflexivity. }
  destruct (refresh_access_token_sent _ _ _ _ Er) as [w ->].
  unfold bind at 1, modify at 1, bind at 1, lift at 1.
  destruct (Py.get new_tok "access_token") as [e | access'] eqn:Eg.
  { intros [= <- <-]. left. exists e. split; [done | reflexivity]. }
  intros Hf. destruct (fetch_mobile_api_sent _ _ _ _ _ Hf) as [w' ->].
  right. exists new_tok, access'. split; [done |]. split; [| reflexivity].
  simpl. by rewrite <- app_assoc.
Qed.

(** ** The web tier sends nothing to the mobile API *)



Lemma page_step_no_mobile ck qr p a :
  stepwise (appends (fun r => is_mobile r = false)) (page_step ck qr p a).
Proof. unfold page_step. repeat stepwise_step ltac:(trace_leaf). Qed.












(** ** A bound on the outbound calls of one search *)

Section Budget.

Variable wt : request -> nat.
Variables g a m b : nat.
Hypothesis wt_get : forall ck ct t, (wt (GetPage ck ct t) <= g)%nat.
Hypothesis wt_ajax : forall ck qr p tr tk, (wt (PostAjax ck qr p tr tk) <= a)%nat.
Hypothesis wt_token : forall rt, (wt (PostToken rt) <= m)%nat.
Hypothesis wt_mobile : forall tok qr, (wt (GetMobile tok qr) <= m)%nat.
Hypothesis wt_browser : (wt LaunchBrowser <= b)%nat.

Lemma at_most_refl n (s : state W) : at_most wt n s s.
Proof. exists []. rewrite app_nil_r. split; [reflexivity | simpl; lia]. Qed.

Lemma at_most_trans n k (s1 s2 s3 : state W) :
  at_most wt n s1 s2 -> at_most wt k s2 s3 -> at_most wt (n + k) s1 s3.
Proof.
  intros (t1 & E1 & H1) (t2 & E2 & H2). exists (t1 ++ t2).
  rewrite E2, E1, app_assoc. split; [reflexivity |].
  rewrite sum_list_with_app. lia.
Qed.

Lemma costs_le {A} n k (c : M A) : (n <= k)%nat -> costs wt n c -> costs wt k c.
Proof.
  intros Hle Hc s r s' Hrun. destruct (Hc s r s' Hrun) as (tr & E & H).
  exists tr. split; [exact E | lia].
Qed.

Lemma costs_ret {A} n (x : A) : costs wt n (ret x).
Proof. intros s r s' [= _ <-]. apply at_most_refl. Qed.

Lemma costs_raise {A} n (e : exn) : costs wt n (@raise (state W) A e).
Proof. intros s r s' [= _ <-]. apply at_most_refl. Qed.

Lemma costs_lift {A} n (x : exn + A) : costs wt n (lift x).
Proof. intros s r s' [= _ <-]. apply at_most_refl. Qed.

Lemma costs_gets {A} n (f : state W -> A) : costs wt n (gets f).
Proof. intros s r s' [= _ <-]. apply at_most_refl. Qed.

Lemma costs_with_files n (f : store -> store) : costs wt n (modify (with_files f)).
Proof.
  intros s r s' [= _ <-]. exists []. simpl. rewrite app_nil_r.
  split; [reflexivity | lia].
Qed.

Lemma costs_bind {A B} n k (c : M A) (f : A -> M B) :
  costs wt n c -> (forall x, costs wt k (f x)) -> costs wt (n + k) (bind c f).
Proof.
  intros Hc Hf s r s' Hrun. unfold bind in Hrun.
  destruct (c s) as [[e | x] s1] eqn:E1.
  - injection Hrun as _ <-. specialize (Hc _ _ _ E1).
    destruct Hc as (tr & E & H). exists tr. split; [exact E | lia].
  - eapply at_most_trans; [exact (Hc _ _ _ E1) | exact (Hf _ _ _ _ Hrun)].
Qed.

Lemma costs_try {A} n k (c : M A) (h : exn -> M A) :
  costs wt n c -> (forall e, costs wt k (h e)) -> costs wt (n + k) (try_except c h).
Proof.
  intros Hc Hh s r s' Hrun. unfold try_except in Hrun.
  destruct (c s) as [[e | x] s1] eqn:E1.
  - eapply at_most_trans; [exact (Hc _ _ _ E1) | exact (Hh _ _ _ _ Hrun)].
  - injection Hrun as _ <-. specialize (Hc _ _ _ E1).
    destruct Hc as (tr & E & H). exists tr. split; [exact E | lia].
Qed.

Lemma costs_call n (r : request) : (wt r <= n)%nat -> costs wt n (call r).
Proof.
  intros Hr s x s' Hrun. rewrite call_run in Hrun.
  exists [r]. simpl.
  destruct (send (world s) r) as [[msg | resp] w]; injection Hrun as _ <-;
    (split; [reflexivity | lia]).
Qed.

Lemma costs_launch : costs wt b launch.
Proof.
  intros s x s' Hrun. unfold launch in Hrun. exists [LaunchBrowser]. simpl.
  destruct (browse (world s)) as [[msg | cookies] w]; injection Hrun as _ <-;
    (split; [reflexivity | lia]).
Qed.

Lemma costs_raise_for_status n resp : costs wt n (@raise_for_status (state W) resp).
Proof.
  unfold raise_for_status. destruct (is_success resp);
    [apply costs_ret | apply costs_raise].
Qed.

Lemma costs_resp_json n resp : costs wt n (@resp_json (state W) resp).
Proof.
  unfold resp_json. destruct (body resp); [apply costs_ret | apply costs_raise].
Qed.

Lemma negotiate_costs (n : nat) ck ct t html :
  costs wt (n * g) (negotiate n ck ct t html).
Proof.
  revert ct t html. induction n as [| n IH]; intros ct t html.
  - apply costs_raise.
  - cbn [negotiate]. replace (S n * g)%nat with (g + n * g)%nat by lia.
    apply costs_bind; [apply costs_call, wt_get | intros resp].
    destruct (is_redirect (status_code resp)).
    + destruct (PyStr.contains "queue-it.net" (location resp));
        [apply costs_raise | apply IH].
    + destruct (PyStr.contains "queue-it.net" (url resp)); [apply costs_raise |].
      destruct (if PyStr.contains "decodeURIComponent" (text resp)
                   && PyStr.contains "cookietest" (text resp)
                then Re.search_decode_redirect (text resp) else None);
        [apply IH |].
      destruct (Re.search_form_build_id (text resp)); [| apply IH].
      destruct (Re.search_theme_token (text resp)); [apply costs_ret | apply IH].
Qed.

Lemma get_form_state_costs ck : costs wt (6 * g) (get_form_state ck).
Proof.
  unfold get_form_state. replace (6 * g)%nat with (g + 5 * g)%nat by lia.
  apply costs_bind; [apply costs_call, wt_get | intros _].
  apply negotiate_costs.
Qed.

Lemma page_step_costs ck qr p x : costs wt a (page_step ck qr p x).
Proof.
  unfold page_step. replace a with (a + 0)%nat by lia.
  apply costs_try; [| intros _; apply costs_ret].
  replace a with (a + 0)%nat by lia.
  apply costs_bind; [apply costs_call, wt_ajax | intros resp].
  replace 0%nat with (0 + 0)%nat by lia.
  apply costs_bind; [apply costs_raise_for_status | intros _].
  destruct (process_page false (body resp) x) as [[e | u] x']; apply costs_ret.
Qed.

Lemma paginate_costs ck qr pages x :
  costs wt (length pages * a) (paginate ck qr pages x).
Proof.
  revert x. induction pages as [| p pages IH]; intros x.
  - apply costs_ret.
  - cbn [paginate length]. replace (S (length pages) * a)%nat
      with (0 + (a + length pages * a))%nat by lia.
    apply costs_bind; [apply costs_lift | intros enough].
    destruct enough; [apply costs_ret |].
    apply costs_bind; [apply page_step_costs | intros r].
    destruct (fst r); [apply IH | apply costs_ret].
Qed.

Lemma fetch_web_ajax_costs ck qr : costs wt (6 * g + 10 * a) (fetch_web_ajax ck qr).
Proof.
  unfold fetch_web_ajax.
  apply costs_bind; [apply get_form_state_costs | intros tokens].
  replace (10 * a)%nat with (a + (0 + (9 * a + 0)))%nat by lia.
  apply costs_bind; [apply costs_call, wt_ajax | intros resp].
  apply costs_bind; [apply costs_raise_for_status | intros _].
  cbv zeta.
  apply costs_bind; [apply (paginate_costs ck qr later_pages) | intros x].
  apply costs_ret.
Qed.

Lemma headless_costs : costs wt b fetch_cookie_header_via_playwright.
Proof.
  unfold fetch_cookie_header_via_playwright.
  replace b with (0 + (b + (0 + 0)))%nat by lia.
  apply costs_bind; [apply costs_gets | intros st].
  destruct (VERCEL st); [apply costs_raise |].
  apply costs_bind; [apply costs_launch | intros cookies]. cbv zeta.
  destruct (PyStr.nonempty (cookie_header_of cookies)); [| apply costs_raise].
  destruct (cookie_write st) as [| | n]; [| apply costs_raise |].
  - apply costs_bind; [apply costs_with_files | intros _; apply costs_ret].
  - apply costs_bind; [apply costs_with_files | intros _; apply costs_raise].
Qed.

Lemma headless_then_web_costs qr :
  costs wt (b + (6 * g + 10 * a)) (headless_then_web qr).
Proof.
  unfold headless_then_web.
  apply costs_bind; [apply headless_costs | intros ck].
  apply fetch_web_ajax_costs.
Qed.

Lemma after_mobile_costs cookie_header qr :
  costs wt (2 * (6 * g + 10 * a) + b) (after_mobile cookie_header qr).
Proof.
  unfold after_mobile.
  assert (Hlast : costs wt (2 * (6 * g + 10 * a) + b) (last_resort qr)).
  { unfold last_resort. apply costs_le with (b + (6 * g + 10 * a) + 0)%nat; [lia |].
    apply costs_try; [apply headless_then_web_costs | intros e; apply costs_raise]. }
  destruct cookie_header as [[| c ck] |]; [exact Hlast | | exact Hlast].
  unfold web_tier.
  apply costs_le with ((6 * g + 10 * a) + (b + (6 * g + 10 * a) + 0))%nat; [lia |].
  apply costs_try; [apply fetch_web_ajax_costs | intros e].
  destruct (PyStr.contains "Queue-it redirection detected" (str_exn e)).
  - apply costs_try; [apply headless_then_web_costs | intros e2; apply costs_raise].
  - apply costs_raise.
Qed.

Lemma fetch_mobile_api_costs token qr : costs wt m (fetch_mobile_api token qr).
Proof.
  unfold fetch_mobile_api. replace m with (m + 0)%nat by lia.
  apply costs_bind; [apply costs_call, wt_mobile | intros resp].
  destruct (status_code resp =? 401); [apply costs_raise |].
  replace 0%nat with (0 + (0 + (0 + (0 + 0))))%nat by lia.
  apply costs_bind; [apply costs_raise_for_status | intros _].
  apply costs_bind; [apply costs_resp_json | intros data].
  apply costs_bind; [apply costs_lift | intros x].
  apply costs_bind; [apply costs_lift | intros y].
  apply costs_lift.
Qed.

Lemma mobile_tier_costs access refresh qr :
  costs wt (3 * m) (mobile_tier access refresh qr).
Proof.
  unfold mobile_tier. replace (3 * m)%nat with (m + 0 + (2 * m))%nat by lia.
  apply costs_try.
  - apply costs_bind; [apply fetch_mobile_api_costs | intros l; apply costs_ret].
  - intros [c d | msg]; [| apply costs_ret].
    destruct ((c =? 401) && Py.truthy refresh); [| apply costs_ret].
    replace (2 * m)%nat with (m + 0 + (0 + (0 + m)) + 0 + 0)%nat by lia.
    apply costs_try; [| intros _; apply costs_ret].
    apply costs_bind; [| intros l; apply costs_ret].
    unfold mobile_refresh_retry, refresh_access_token.
    apply costs_bind.
    + apply costs_bind; [apply costs_call, wt_token | intros resp].
      replace 0%nat with (0 + 0)%nat by lia.
      apply costs_bind; [apply costs_raise_for_status | intros _].
      apply costs_resp_json.
    + intros new_tok.
      apply costs_bind; [apply costs_with_files | intros _].
      apply costs_bind; [apply costs_lift | intros access'].
      apply fetch_mobile_api_costs.
Qed.

Lemma perform_search_costs qr :
  costs wt (3 * m + (2 * (6 * g + 10 * a) + b)) (_perform_search qr).
Proof.
  unfold _perform_search.
  apply costs_le with (0 + (3 * m + (2 * (6 * g + 10 * a) + b)))%nat; [lia |].
  apply costs_bind; [apply costs_gets | intros st]. cbv zeta.
  apply costs_bind.
  - destruct (Py.truthy (load_token_file st)); [| apply costs_ret].
    replace (3 * m)%nat with (0 + (0 + 3 * m))%nat by lia.
    apply costs_bind; [apply costs_lift | intros access].
    destruct (Py.truthy access); [| apply costs_ret].
    apply costs_bind; [apply costs_lift | intros refresh].
    apply mobile_tier_costs.
  - intros [r |]; [apply costs_ret | apply after_mobile_costs].
Qed.

End Budget.

Lemma sum_counting (P : request -> bool) (tr : list request) :
  sum_list_with (counting P) tr = length (List.filter P tr).
Proof.
  induction tr as [| r tr IH]; [reflexivity |].
  simpl. unfold counting at 1. destruct (P r); simpl; lia.
Qed.

(** One run of [_perform_search], whatever the network, the browser and
    the stored credentials do, makes at most 36 outbound calls: at most
    3 to the mobile side (two fetches and one token refresh), at most 12
    page loads and 20 form submissions on the web side, and at most one
    launch of the headless browser. *)
Theorem perform_search_call_budget qr (s : state W) r s' :
  _perform_search qr s = (r, s') ->
  exists tr, trace s' = trace s ++ tr /\
    (length tr <= 36)%nat /\
    (length (List.filter is_mobile tr) <= 3)%nat /\
    (length (List.filter is_get tr) <= 12)%nat /\
    (length (List.filter is_ajax tr) <= 20)%nat /\
    (length (List.filter is_browser tr) <= 1)%nat.
Proof.
  intros Hrun.
  assert (Hcount : forall (P : request -> bool) g a m b,
    (forall ck ct t, (counting P (GetPage ck ct t) <= g)%nat) ->
    (forall ck qr p tr tk, (counting P (PostAjax ck qr p tr tk) <= a)%nat) ->
    (forall rt, (counting P (PostToken rt) <= m)%nat) ->
    (forall tok qr, (counting P (GetMobile tok qr) <= m)%nat) ->
    (counting P LaunchBrowser <= b)%nat ->
    exists tr, trace s' = trace s ++ tr /\
      (length (List.filter P tr) <= 3 * m + (2 * (6 * g + 10 * a) + b))%nat).
  { intros P g a m b H1 H2 H3 H4 H5.
    destruct (perform_search_costs (counting P) g a m b H1 H2 H3 H4 H5 qr s r s' Hrun)
      as (tr & E & H).
    exists tr. split; [exact E |]. rewrite <- sum_counting. exact H. }
  destruct (Hcount (fun _ => true) 1 1 1 1)%nat as (tr & E & Hall);
    try (intros; unfold counting; simpl; lia).
  exists tr. split; [exact E |].
  assert (Hsame : forall tr', trace s' = trace s ++ tr' -> tr' = tr).
  { intros tr' E'. rewrite E in E'. symmetry. exact (app_inv_head _ _ _ E'). }
  split.
  { clear -Hall. revert Hall.
    assert (List.filter (fun _ : request => true) tr = tr) as ->
      by (induction tr as [| x l IH]; simpl; congruence).
    lia. }
  split.
  { destruct (Hcount is_mobile 0 0 1 0)%nat as (tr' & E' & H');
      try (intros; unfold counting; simpl; lia).
    rewrite <- (Hsame _ E'). lia. }
  split.
  { destruct (Hcount is_get 1 0 0 0)%nat as (tr' & E' & H');
      try (intros; unfold counting; simpl; lia).
    rewrite <- (Hsame _ E'). lia. }
  split.
  { destruct (Hcount is_ajax 0 1 0 0)%nat as (tr' & E' & H');
      try (intros; unfold counting; simpl; lia).
    rewrite <- (Hsame _ E'). lia. }
  destruct (Hcount is_browser 0 0 0 1)%nat as (tr' & E' & H');
    try (intros; unfold counting; simpl; lia).
  rewrite <- (Hsame _ E'). lia.
Qed.

(** ** The tiers of [_perform_search], one by one *)


(** The only [HTTPException] the mobile fetch raises is the 401 it
    raises on an upstream 401; every other failure is an exception of
    another class. *)
Lemma fetch_mobile_api_http token qr (s s' : state W) c d :
  fetch_mobile_api token qr s = (inl (HTTPException c d), s') ->
  c = 401 /\
  exists resp w, send (world s) (GetMobile token qr) = (inr resp, w) /\
                 status_code resp = 401.
Proof.
  unfold fetch_mobile_api, bind. rewrite call_run.
  destruct (send (world s) (GetMobile token qr)) as [[msg | resp] w] eqn:Hs;
    [discriminate |].
  destruct (status_code resp =? 401) eqn:Hc.
  - intros [= <- _ _]. split; [reflexivity |]. exists resp, w.
    split; [reflexivity | by apply Z.eqb_eq].
  - unfold raise_for_status, resp_json, raise, ret, lift.
    destruct (is_success resp); [| discriminate].
    destruct (body resp) as [data |]; [| discriminate].
    destruct (Py.get data "items") as [e1 | x] eqn:H1;
      [intros [= -> _]; by destruct (plain_get _ _ _ _ H1) |].
    destruct (Py.get data "content") as [e2 | y] eqn:H2;
      [intros [= -> _]; by destruct (plain_get _ _ _ _ H2) |].
    intros [= Hn _]. by destruct (plain_normalize_dates _ _ _ Hn).
Qed.

(** A first mobile fetch that fails while the upstream did not answer
    401, or that fails while the bundle has no refresh token, never leads
    to a token refresh: the search goes on to the web side with that
    single mobile call behind it and the stored credentials untouched. *)
Theorem mobile_failure_without_refresh qr (s s1 : state W) access refresh e :
  Py.truthy (load_token_file (files s)) = true ->
  Py.get (load_token_file (files s)) "access_token" = inr access ->
  Py.truthy access = true ->
  Py.get (load_token_file (files s)) "refresh_token" = inr refresh ->
  fetch_mobile_api access qr s = (inl e, s1) ->
  (forall resp w, send (world s) (GetMobile access qr) = (inr resp, w) ->
                  status_code resp <> 401) \/
  Py.truthy refresh = false ->
  _perform_search qr s = after_mobile (load_cookie_header (files s)) qr s1 /\
  trace s1 = trace s ++ [GetMobile access qr] /\
  files s1 = files s.
Proof.
  intros Htok Hget Hacc Href Hfetch Hno.
  pose proof Hfetch as Hsent.
  apply fetch_mobile_api_sent in Hsent as [w Hs1].
  split; [| subst s1; split; reflexivity].
  unfold _perform_search, bind, gets. rewrite Htok, Hget. unfold lift at 1.
  rewrite Hacc, Href. unfold lift.
  unfold mobile_tier, try_except, bind. rewrite Hfetch.
  destruct e as [c d | msg]; [| reflexivity].
  destruct (fetch_mobile_api_http _ _ _ _ _ _ Hfetch) as (-> & resp & w' & Hsend & H401).
  destruct Hno as [Hno | Hno].
  - destruct (Hno _ _ Hsend H401).
  - rewrite Hno. reflexivity.
Qed.

(** Whatever goes wrong after the mobile tier reaches the caller of
    [_perform_search] as an [HTTPException]: with a cookie header, status
    500 and a detail that starts with TenUp web error; without one,
    status 502. *)
Theorem web_failures_are_wrapped cookie_header qr (s s' : state W) e :
  after_mobile cookie_header qr s = (inl e, s') ->
  match cookie_header with
  | Some (String _ _) =>
      exists cause, e = HTTPException 500 ("TenUp web error: " +:+ cause)
  | _ =>
      exists cause,
        e = HTTPException 502
              ("API mobile indisponible et cookies headless échoués: " +:+ cause)
  end.
Proof.
  assert (Hlast : last_resort qr s = (inl e, s') ->
            exists cause,
              e = HTTPException 502
                    ("API mobile indisponible et cookies headless échoués: " +:+ cause)).
  { unfold last_resort, try_except.
    destruct (headless_then_web qr s) as [[e0 | r] s0]; [| discriminate].
    intros [= <- _]. by eexists. }
  unfold after_mobile. destruct cookie_header as [[| c ck] |]; try exact Hlast.
  unfold web_tier, try_except.
  destruct (fetch_web_ajax _ _ s) as [[e0 | r] s0]; [| discriminate].
  destruct (PyStr.contains "Queue-it redirection detected" (str_exn e0)).
  - destruct (headless_then_web qr s0) as [[e2 | r] s2]; [| discriminate].
    intros [= <- _]. by eexists.
  - intros [= <- _]. by eexists.
Qed.


(** The headless refresh.  On Vercel it fails before any browser is
    launched and leaves everything as it was.  When it returns a header,
    the browser was launched once, the header is not empty and has been
    written to [cookies.txt]; the token bundle is untouched, and so is
    what the next search will load as its cookie header whenever
    [TENUP_COOKIE] is set or [cookie.txt] exists: the fresh header is
    then not the one used. *)
Theorem headless_refresh_outcome (s s' : state W) r :
  fetch_cookie_header_via_playwright s = (r, s') ->
  (VERCEL (files s) = true ->
   r = inl (RuntimeError
              "Playwright not supported on Vercel. Please set 'TENUP_COOKIE' env var.")
   /\ s' = s) /\
  (forall header, r = inr header ->
     header <> "" /\
     trace s' = trace s ++ [LaunchBrowser] /\
     COOKIE_PATH_ALT (files s') = Holds header /\
     load_token_file (files s') = load_token_file (files s) /\
     (forall raw, COOKIE_PATH (files s) = Holds raw ->
                  load_cookie_header (files s') = load_cookie_header (files s)) /\
     (forall c e, TENUP_COOKIE (files s) = Some (String c e) ->
                  load_cookie_header (files s') = load_cookie_header (files s)) /\
     ((TENUP_COOKIE (files s) = None \/ TENUP_COOKIE (files s) = Some "") ->
      COOKIE_PATH (files s) = Missing ->
      load_cookie_header (files s') = Some (clean_cookie_file header))).
Proof.
  unfold fetch_cookie_header_via_playwright, bind, gets.
  destruct (VERCEL (files s)) eqn:Hv.
  - intros [= <- <-]. split; [by intros _ | intros header [=]].
  - unfold launch.
    destruct (browse (world s)) as [[msg | cookies] w];
      [intros [= <- <-]; split; [discriminate | intros header [=]] |].
    cbv zeta. destruct (PyStr.nonempty (cookie_header_of cookies)) eqn:Hne;
      [| intros [= <- <-]; split; [discriminate | intros header [=]]].
    destruct (cookie_write (files s)) as [| | n];
      [| intros [= <- <-]; split; [discriminate | intros header [=]]
       | intros [= <- <-]; split; [discriminate | intros header [=]]].
    intros [= <- <-]. split; [discriminate |]. intros header [= <-].
    split; [intros E; rewrite E in Hne; discriminate |].
    split; [reflexivity |]. split; [reflexivity |]. split; [reflexivity |].
    unfold with_files, load_cookie_header; simpl.
    split; [intros raw ->; reflexivity |].
    split; [intros c e ->; reflexivity |].
    intros [-> | ->] ->; reflexivity.
Qed.
End World.

(** ** The cache (C7) *)

Lemma cache_get_live (c : cache_t) now key data expiry :
  c !! key = Some (data, expiry) -> (now < expiry)%Q ->
  cache_get now key c = (Some data, c).
Proof.
  intros Hk Hlt. unfold cache_get. rewrite Hk.
  destruct (Qlt_le_dec now expiry) as [_ | Hle]; [reflexivity |].
  exfalso. apply (Qlt_not_le _ _ Hlt Hle).
Qed.

Lemma cache_get_expired (c : cache_t) now key data expiry :
  c !! key = Some (data, expiry) -> (expiry <= now)%Q ->
  cache_get now key c = (None, delete key c).
Proof.
  intros Hk Hle. unfold cache_get. rewrite Hk.
  destruct (Qlt_le_dec now expiry) as [Hlt | _]; [| reflexivity].
  exfalso. apply (Qlt_not_le _ _ Hlt Hle).
Qed.

(** C7. A put at time [now] followed by a get at time [t]: before
    [now + 3600] the get returns the payload that was put and leaves the
    cache as it is; from [now + 3600] on it returns absent and hands back
    a cache from which the entry is gone (and that otherwise is the cache
    before the put). *)
Theorem cache_put_then_get (c : cache_t) (key : string) (r : result) (now t : Q) :
  ((t < now + (3600 # 1))%Q ->
     cache_get t key (cache_put now key r c) = (Some r, cache_put now key r c)) /\
  ((now + (3600 # 1) <= t)%Q ->
     cache_get t key (cache_put now key r c) = (None, delete key c) /\
     snd (cache_get t key (cache_put now key r c)) !! key = None).
Proof.
  split; intros Ht.
  - apply cache_get_live with (expiry := (now + CACHE_TTL)%Q); [| exact Ht].
    unfold cache_put. apply lookup_insert_eq.
  - assert (Hget : cache_get t key (cache_put now key r c) = (None, delete key c)).
    { rewrite (cache_get_expired _ t key r (now + CACHE_TTL)%Q).
      - unfold cache_put. by rewrite delete_insert_eq.
      - unfold cache_put. apply lookup_insert_eq.
      - exact Ht. }
    split; [exact Hget |]. rewrite Hget. simpl. apply lookup_delete_eq.
Qed.

(** ** The cache key (C6) *)



(** A fraction strictly within half a unit of an integer rounds to it. *)
Lemma round_half_even_near (num den k : Z) :
  0 < den -> 2 * Z.abs (num - k * den) < den -> round_half_even num den = k.
Proof.
  intros Hden Hnear. unfold round_half_even.
  pose proof (Z.div_mod num den ltac:(lia)) as Hdm.
  pose proof (Z.mod_pos_bound num den Hden) as Hr.
  set (d := num / den) in *. set (r := num mod den) in *.
  assert (Hk : d = k \/ d = k - 1) by nia.
  destruct (Z.compare_spec (2 * r) den) as [Heq | Hlt | Hgt]; nia.
Qed.


(** ** The credential store (C8) *)

(** C8, as the code has it. The token file wins over [TENUP_TOKEN], which
    is read only when the file yields nothing, and the load is absent when
    neither yields a value; [TENUP_COOKIE], when set and not empty, wins
    over the cookie files, of which [cookie.txt] comes before
    [cookies.txt], and the load is absent when there is no override and no
    cookie file. *)
Theorem credential_precedence (st : store) :
  (forall j, TOKEN_PATH st = Holds j -> load_token_file st = j) /\
  (forall j, (forall j', TOKEN_PATH st <> Holds j') ->
             TENUP_TOKEN st = Holds j -> load_token_file st = j) /\
  ((forall j, TOKEN_PATH st <> Holds j) -> (forall j, TENUP_TOKEN st <> Holds j) ->
   load_token_file st = JNull) /\
  (forall e, TENUP_COOKIE st = Some e -> e <> "" ->
             load_cookie_header st = Some (strip_cookie_prefix e)) /\
  (forall raw, (TENUP_COOKIE st = None \/ TENUP_COOKIE st = Some "") ->
               COOKIE_PATH st = Holds raw ->
               load_cookie_header st = Some (clean_cookie_file raw)) /\
  (forall raw, (TENUP_COOKIE st = None \/ TENUP_COOKIE st = Some "") ->
               COOKIE_PATH st = Missing -> COOKIE_PATH_ALT st = Holds raw ->
               load_cookie_header st = Some (clean_cookie_file raw)) /\
  ((TENUP_COOKIE st = None \/ TENUP_COOKIE st = Some "") ->
   COOKIE_PATH st = Missing -> COOKIE_PATH_ALT st = Missing ->
   load_cookie_header st = None).
Proof.
  unfold load_token_file, load_cookie_header.
  repeat split.
  - intros j ->. reflexivity.
  - intros j Hfile ->. destruct (TOKEN_PATH st) as [| | j']; try reflexivity.
    exfalso. by apply (Hfile j').
  - intros Hfile Henv. destruct (TOKEN_PATH st) as [| | j'].
    + destruct (TENUP_TOKEN st) as [| | j]; try reflexivity. exfalso. by apply (Henv j).
    + destruct (TENUP_TOKEN st) as [| | j]; try reflexivity. exfalso. by apply (Henv j).
    + exfalso. by apply (Hfile j').
  - intros e -> Hne. destruct e; [done | reflexivity].
  - intros raw [-> | ->] ->; reflexivity.
  - intros raw [-> | ->] -> ->; reflexivity.
  - intros [-> | ->] -> ->; reflexivity.
Qed.

(** ** The cookie jar *)

Lemma kept_header_safe (a : ascii) :
  Cookie.kept a = true -> Cookie.header_safe a = true.
Proof.
  destruct a as [[] [] [] [] [] [] [] []]; vm_compute; intros H;
    first [reflexivity | discriminate H].
Qed.

Lemma hex_digit_kept (k : nat) : Cookie.kept (Cookie.hex_digit k) = true.
Proof. do 16 (destruct k as [| k]; [reflexivity |]). reflexivity. Qed.

Lemma all_chars_app p (s1 s2 : string) :
  PyStr.all_chars p (s1 +:+ s2) = PyStr.all_chars p s1 && PyStr.all_chars p s2.
Proof.
  induction s1 as [| a s1 IH]; [reflexivity |].
  simpl. rewrite IH. by rewrite andb_assoc.
Qed.

Lemma pct_kept (n : nat) : PyStr.all_chars Cookie.kept (Cookie.pct n) = true.
Proof.
  unfold Cookie.pct. cbn [PyStr.all_chars].
  rewrite !hex_digit_kept. reflexivity.
Qed.

Lemma quote_char_kept (a : ascii) :
  PyStr.all_chars Cookie.kept (Cookie.quote_char a) = true.
Proof.
  unfold Cookie.quote_char. destruct (Cookie.kept a) eqn:Hk.
  - simpl. by rewrite Hk.
  - destruct (_ <? _)%nat; [apply pct_kept |].
    rewrite all_chars_app, !pct_kept. reflexivity.
Qed.

Lemma quote_kept (v : string) :
  PyStr.all_chars Cookie.kept (Cookie.quote v) = true.
Proof.
  induction v as [| a v IH]; [reflexivity |].
  simpl. rewrite all_chars_app, quote_char_kept, IH. reflexivity.
Qed.

Lemma quote_of_kept (v : string) :
  PyStr.all_chars Cookie.kept v = true -> Cookie.quote v = v.
Proof.
  induction v as [| a v IH]; [reflexivity |].
  simpl. intros [Ha Hv]%andb_prop. unfold Cookie.quote_char.
  rewrite Ha, (IH Hv). reflexivity.
Qed.

Lemma all_chars_impl (p q : ascii -> bool) (s : string) :
  (forall a, p a = true -> q a = true) ->
  PyStr.all_chars p s = true -> PyStr.all_chars q s = true.
Proof.
  intros Hpq. induction s as [| a s IH]; [reflexivity |].
  simpl. intros [Ha Hs]%andb_prop. by rewrite (Hpq _ Ha), (IH Hs).
Qed.

Lemma dict_set_names name value cookies :
  forall n, n ∈ map fst (Cookie.dict_set name value cookies) ->
            n = name \/ n ∈ map fst cookies.
Proof.
  induction cookies as [| [n0 v0] cookies IH]; intros n; simpl.
  - intros ->%list_elem_of_singleton. by left.
  - destruct (String.eqb name n0) eqn:E; simpl.
    + apply String.eqb_eq in E as ->. intros [-> | H]%elem_of_cons.
      * by left.
      * right. by apply elem_of_cons; right.
    + intros [-> | H]%elem_of_cons.
      * right. by apply elem_of_cons; left.
      * destruct (IH _ H) as [-> | H']; [by left |].
        right. by apply elem_of_cons; right.
Qed.

Lemma dict_set_ok name value cookies :
  PyStr.nonempty name = true ->
  PyStr.all_chars Cookie.kept value = true ->
  Cookie.jar_ok cookies -> Cookie.jar_ok (Cookie.dict_set name value cookies).
Proof.
  intros Hn Hv [Hall Hnd]. induction cookies as [| [n0 v0] cookies IH]; simpl.
  - split; [by repeat constructor | repeat constructor; apply not_elem_of_nil].
  - apply Forall_cons in Hall as [H0 Hall]. apply NoDup_cons in Hnd as [Hnot Hnd].
    destruct (String.eqb name n0) eqn:E.
    + apply String.eqb_eq in E as ->. split.
      * by apply Forall_cons.
      * simpl. by apply NoDup_cons.
    + destruct (IH Hall Hnd) as [Hall' Hnd']. split.
      * by apply Forall_cons.
      * simpl. apply NoDup_cons. split; [| exact Hnd'].
        intros [-> | H]%dict_set_names; [| by apply Hnot].
        by rewrite String.eqb_refl in E.
Qed.

Lemma parse_chunk_ok cookies chunk :
  Cookie.jar_ok cookies -> Cookie.jar_ok (Cookie.parse_chunk cookies chunk).
Proof.
  intros Hok. unfold Cookie.parse_chunk.
  destruct (PyStr.span_not "=" chunk) as [name [| c value]]; [exact Hok |].
  cbv zeta. destruct (PyStr.nonempty (PyStr.strip name)) eqn:Hn; [| exact Hok].
  apply dict_set_ok; [exact Hn | apply quote_kept | exact Hok].
Qed.

(** [parse_cookie_header] keeps request headers safe, as its comment
    intends: whatever the cookie header holds, no cookie of the jar has
    an empty name, no name occurs twice, and every value is made of
    characters that [quote] leaves alone, which are printable ASCII other
    than the space, the double quote, the semicolon and the backslash;
    quoting such a value again changes nothing. *)
Theorem parse_cookie_header_safe (cookie_header : string) :
  NoDup (map fst (Cookie.parse_cookie_header cookie_header)) /\
  Forall (fun kv =>
            fst kv <> "" /\
            PyStr.all_chars Cookie.header_safe (snd kv) = true /\
            Cookie.quote (snd kv) = snd kv)
         (Cookie.parse_cookie_header cookie_header).
Proof.
  assert (Hok : Cookie.jar_ok (Cookie.parse_cookie_header cookie_header)).
  { unfold Cookie.parse_cookie_header.
    assert (H : forall l acc, Cookie.jar_ok acc ->
                              Cookie.jar_ok (fold_left Cookie.parse_chunk l acc)).
    { induction l as [| c l IH]; intros acc Hacc; [exact Hacc |].
      simpl. apply IH, parse_chunk_ok, Hacc. }
    apply H. split; constructor. }
  destruct Hok as [Hall Hnd]. split; [exact Hnd |].
  eapply Forall_impl; [exact Hall |]. intros [n v] [Hn Hv]; simpl in *.
  split; [intros ->; discriminate |].
  split; [exact (all_chars_impl _ _ _ kept_header_safe Hv) | by apply quote_of_kept].
Qed.

(** the cookies of a header with a blank, a repeated name, a chunk
    without equals sign and a value with a space and an accent *)
Example parse_cookie_header_ex :
  Cookie.parse_cookie_header
    (" a = 1 ; junk; b=x y; a=caf" +:+ String (ascii_of_nat 233) ";=z")
  = [("a", "caf%C3%A9"); ("b", "x%20y")].
Proof. vm_compute. reflexivity. Qed.

(** ** The cache *)

(** A live entry answers the search by itself: the cached payload is
    returned, and neither the cache, nor the stored credentials, nor the
    outside world are touched; no outbound call is made. *)
Theorem cache_hit_is_silent (W : Type) send browse now qr (c : cache_t)
    (s : state W) data expiry :
  c !! cache_key qr = Some (data, expiry) -> (now < expiry)%Q ->
  search_tenup W send browse now qr (c, s) = (inr data, (c, s)).
Proof.
  intros Hc Hlt. apply search_tenup_hit. by apply cache_get_live with expiry.
Qed.

Lemma cache_evict_lookup now (c : cache_t) k v :
  cache_evict now c !! k = Some v -> c !! k = Some v.
Proof.
  unfold cache_evict. destruct (500 <? size c)%nat; [| done].
  by intros [H _]%map_lookup_filter_Some.
Qed.


(** ** Rounding *)



(** ** The token file *)


(** ** Date normalisation *)

Lemma assoc_set_same k v d : Py.assoc k (Py.assoc_set k v d) = Some v.
Proof.
  induction d as [| [k' v'] d IH]; simpl.
  - by rewrite String.eqb_refl.
  - destruct (String.eqb k k') eqn:E; simpl.
    + by rewrite String.eqb_refl.
    + by rewrite E.
Qed.

Lemma assoc_set_other k k' v d :
  k' <> k -> Py.assoc k' (Py.assoc_set k v d) = Py.assoc k' d.
Proof.
  intros Hne. induction d as [| [k0 v0] d IH]; simpl.
  - apply String.eqb_neq in Hne. by rewrite Hne.
  - destruct (String.eqb k k0) eqn:E; simpl.
    + apply String.eqb_eq in E as <-. apply String.eqb_neq in Hne. by rewrite Hne.
    + by rewrite IH.
Qed.

(** what [copy_date] makes of a dict *)
Lemma copy_date_dict src dst d :
  copy_date src dst (JDict d) =
    inr (JDict (if Py.truthy (field src d) && negb (Py.truthy (field dst d))
                then Py.assoc_set dst (JDict [("date", field src d)]) d
                else d)).
Proof.
  unfold copy_date, Py.get, Py.get_default, ebind. fold (field src d).
  destruct (Py.truthy (field src d)); [| reflexivity].
  fold (field dst d). destruct (Py.truthy (field dst d)); reflexivity.
Qed.

Lemma copy_date_inv src dst it it' :
  copy_date src dst it = inr it' -> exists d, it = JDict d.
Proof. destruct it; try discriminate. by eexists. Qed.

Lemma copy_date_settles src dst it it' :
  copy_date src dst it = inr it' -> settled src dst it'.
Proof.
  intros H. destruct (copy_date_inv _ _ _ _ H) as [d ->].
  rewrite copy_date_dict in H. injection H as <-.
  destruct (Py.truthy (field src d)) eqn:Hs; simpl.
  - destruct (Py.truthy (field dst d)) eqn:Hd; simpl.
    + exists d. split; [reflexivity | by right].
    + eexists. split; [reflexivity | right].
      unfold field. by rewrite assoc_set_same.
  - exists d. split; [reflexivity | by left].
Qed.

Lemma copy_date_settled src dst it :
  settled src dst it -> copy_date src dst it = inr it.
Proof.
  intros (d & -> & H). rewrite copy_date_dict.
  destruct H as [-> | ->]; [reflexivity |]. by rewrite andb_false_r.
Qed.

Lemma copy_date_keeps_settled src dst src' dst' it it' :
  dst' <> src -> dst' <> dst ->
  settled src dst it -> copy_date src' dst' it = inr it' -> settled src dst it'.
Proof.
  intros Hs Hd (d & -> & H). rewrite copy_date_dict. intros [= <-].
  destruct (_ && _); [| by exists d].
  eexists. split; [reflexivity |]. unfold field.
  by rewrite !assoc_set_other.
Qed.

Lemma copy_date_keeps_fields src dst it it' :
  dst = "dateDebut" \/ dst = "dateFin" ->
  copy_date src dst it = inr it' -> keeps_fields it it'.
Proof.
  intros Hdst H. destruct (copy_date_inv _ _ _ _ H) as [d ->].
  rewrite copy_date_dict in H. injection H as <-.
  eexists _, _. split; [reflexivity |]. split; [reflexivity |].
  intros k Hk. destruct (Py.truthy (field src d)); simpl; [| reflexivity].
  destruct (Py.truthy (field dst d)) eqn:Hd; simpl; [reflexivity |].
  unfold field. destruct (String.eqb_spec k dst) as [-> | Hne].
  - exfalso. destruct Hk as [[H1 H2] | Hk].
    + destruct Hdst; congruence.
    + rewrite Hk in Hd. discriminate.
  - by rewrite assoc_set_other.
Qed.

Lemma keeps_fields_trans it1 it2 it3 :
  keeps_fields it1 it2 -> keeps_fields it2 it3 -> keeps_fields it1 it3.
Proof.
  intros (d1 & d2 & -> & -> & H12) (d2' & d3 & [= <-] & -> & H23).
  eexists _, _. split; [reflexivity |]. split; [reflexivity |].
  intros k Hk. rewrite <- (H12 k Hk). apply H23.
  destruct Hk as [Hk | Hk]; [by left | right]. by rewrite (H12 k (or_intror Hk)).
Qed.

Lemma emap_Forall2 {A B} (f : A -> exn + B) (l : list A) (l' : list B) :
  emap f l = inr l' -> Forall2 (fun x y => f x = inr y) l l'.
Proof.
  revert l'. induction l as [| x l IH]; intros l'; simpl.
  - intros [= <-]. constructor.
  - unfold ebind. destruct (f x) as [e | y] eqn:Hx; [discriminate |].
    destruct (emap f l) as [e | ys]; [discriminate |].
    intros [= <-]. constructor; [exact Hx | by apply IH].
Qed.

Lemma emap_fixed {A} (f : A -> exn + A) (l : list A) :
  Forall (fun x => f x = inr x) l -> emap f l = inr l.
Proof.
  induction 1 as [| x l Hx _ IH]; [reflexivity |].
  simpl. unfold ebind. by rewrite Hx, IH.
Qed.

(** [normalize_dates] on the items it was given, one for one and in
    order: each item comes back with every field it had that was truthy
    or is neither [dateDebut] nor [dateFin]; an item with a truthy
    [startDate] has a truthy [dateDebut] afterwards, and likewise
    [endDate] and [dateFin]; normalising the result again changes
    nothing. *)
Theorem normalize_dates_settles (items : json) (l0 l : list json) :
  Py.iter items = inr l0 ->
  normalize_dates items = inr l ->
  Forall2 keeps_fields l0 l /\
  Forall (fun it => settled "startDate" "dateDebut" it /\
                    settled "endDate" "dateFin" it) l /\
  normalize_dates (JList l) = inr l.
Proof.
  intros Hiter. unfold normalize_dates. rewrite Hiter. simpl.
  intros Hmap%emap_Forall2.
  assert (Hpoint : Forall2 (fun it it' =>
            keeps_fields it it' /\
            settled "startDate" "dateDebut" it' /\
            settled "endDate" "dateFin" it') l0 l).
  { eapply Forall2_impl; [exact Hmap |]. intros it it'. unfold ebind.
    destruct (copy_date "startDate" "dateDebut" it) as [e | it1] eqn:H1;
      [discriminate |].
    intros H2. split; [| split].
    - apply keeps_fields_trans with it1.
      + apply (copy_date_keeps_fields "startDate" "dateDebut"); [by left | exact H1].
      + apply (copy_date_keeps_fields "endDate" "dateFin"); [by right | exact H2].
    - eapply (copy_date_keeps_settled "startDate" "dateDebut");
        [| | eapply copy_date_settles; exact H1 | exact H2]; discriminate.
    - eapply copy_date_settles; exact H2. }
  split; [eapply Forall2_impl; [exact Hpoint |]; by intros ?? [? _] |].
  assert (Hall : Forall (fun it => settled "startDate" "dateDebut" it /\
                                   settled "endDate" "dateFin" it) l).
  { clear -Hpoint. induction Hpoint as [| ???? [_ H] _ IH]; constructor; done. }
  split; [exact Hall |].
  apply emap_fixed. eapply Forall_impl; [exact Hall |].
  intros it [H1 H2]. unfold ebind.
  rewrite (copy_date_settled _ _ _ H1). exact (copy_date_settled _ _ _ H2).
Qed.

(** ** The tokens of the search form *)







(** ** What a failed search leaves behind *)

(** When [search_tenup] fails, [_perform_search] failed; the caller gets
    status 500 whatever status was raised below, with the text of that
    failure in the detail; and nothing is cached under the key of the
    query. *)
Theorem search_failure_surface (W : Type) send browse now qr (c c' : cache_t)
    (s s' : state W) e :
  search_tenup W send browse now qr (c, s) = (inl e, (c', s')) ->
  exists e0,
    _perform_search W send browse qr s = (inl e0, s') /\
    e = HTTPException 500 ("Internal Server Error: " +:+ str_exn e0) /\
    c' !! cache_key qr = None.
Proof.
  destruct (cache_get now (cache_key qr) c) as [[data |] c0] eqn:Hget.
  - rewrite (search_tenup_hit _ _ _ _ _ _ _ _ _ Hget). discriminate.
  - rewrite search_tenup_miss by (by rewrite Hget). cbv zeta. rewrite Hget.
    destruct (_perform_search W send browse qr s) as [[e0 | r] s0]; [| discriminate].
    intros [= <- <- <-]. exists e0. split; [reflexivity |]. split; [reflexivity |].
    assert (Hc0 : c0 !! cache_key qr = None).
    { unfold cache_get in Hget. destruct (c !! cache_key qr) as [[d x] |] eqn:Hk.
      - destruct (Qlt_le_dec now x); [discriminate |].
        injection Hget as <-. apply lookup_delete_eq.
      - by injection Hget as <-. }
    simpl. destruct (cache_evict now c0 !! cache_key qr) as [v |] eqn:Hv;
      [| reflexivity].
    apply cache_evict_lookup in Hv. congruence.
Qed.
(** ** Instances and counterexamples *)



Lemma cache_put_then_get_witness :
  cache_get (1800 # 1) "k" (cache_put 0 "k" Ex.some_result ∅)
    = (Some Ex.some_result, cache_put 0 "k" Ex.some_result ∅) /\
  cache_get (3600 # 1) "k" (cache_put 0 "k" Ex.some_result ∅)
    = (None, delete "k" ∅).
Proof.
  split.
  - apply (proj1 (cache_put_then_get ∅ "k" Ex.some_result 0 (1800 # 1))).
    reflexivity.
  - apply (proj2 (cache_put_then_get ∅ "k" Ex.some_result 0 (3600 # 1))).
    unfold Qle. simpl. lia.
Defined.

(** With a token file and a [TENUP_TOKEN] override both present, the
    load returns the file's bundle, not the override. *)
Lemma token_override_counterexample :
  ~ (forall (st : store) (j : json),
       TENUP_TOKEN st = Holds j -> load_token_file st = j).
Proof.
  intros H.
  specialize (H Ex.store_file_and_env (Ex.bundle "from-env" "r-env") eq_refl).
  discriminate H.
Qed.

Lemma credential_precedence_witness :
  load_token_file Ex.store_file_and_env = Ex.bundle "from-file" "r-file" /\
  load_cookie_header Ex.store_cookies = Some "env=1".
Proof.
  split.
  - apply (proj1 (credential_precedence Ex.store_file_and_env)). reflexivity.
  - apply (proj1 (proj2 (proj2 (proj2 (credential_precedence Ex.store_cookies))))
             "Cookie: env=1"); [reflexivity | discriminate].
Defined.

(** *** The mobile tier on a rejected token *)


(** The same exchange over a token file that cannot be written: the
    cycle succeeds all the same, and the token file still holds the old
    bundle. *)
Lemma refresh_not_persisted_counterexample :
  let s := Sim.start (Sim.store_read_only (Ex.bundle "old" "r1")) in
  let out := _perform_search unit Sim.mobile_site Sim.browser Sim.q0 s in
  fst out = inr {| count := 1; items := [Sim.item 7];
                   source := "mobile_api"; total_api := None |} /\
  trace (snd out) = [GetMobile (JStr "old") Sim.q0; PostToken (JStr "r1");
                     GetMobile (JStr "new") Sim.q0] /\
  TOKEN_PATH (files (snd out)) = Holds (Ex.bundle "old" "r1") /\
  load_token_file (files (snd out)) <> Ex.bundle "new" "r2".
Proof. vm_compute. repeat split; discriminate. Qed.

(** *** The web tier *)

(** The site reports 25 results, serves ten items on page 0 and the
    same ten again on page 1: ten items are returned, the reported
    total is 25, and pages 0 and 1 were requested.  When page 1 serves
    items 9 to 12 and page 2 is not answered, the ten items of page 0
    and items 11 and 12 are returned, and pages 0, 1 and 2 were
    requested.  When the total comes as a text, the fetch raises after
    page 0. *)
Lemma web_pagination_witness :
  let s := Sim.start Ex.empty_store in
  (exists s',
     fetch_web_ajax unit (Sim.site Sim.pages_25) "a=1" (web_query Sim.q0) s
       = (inr {| count := 10; items := Sim.ten_items;
                 source := "tenup_web"; total_api := Some (JInt 25) |}, s') /\
     ajax_pages (trace s') = [0; 1]%nat) /\
  (exists s',
     fetch_web_ajax unit (Sim.site Sim.pages_more) "a=1" (web_query Sim.q0) s
       = (inr {| count := 12;
                 items := Sim.ten_items ++ [Sim.item 11; Sim.item 12];
                 source := "tenup_web"; total_api := Some (JInt 25) |}, s') /\
     ajax_pages (trace s') = [0; 1; 2]%nat) /\
  (exists s',
     fetch_web_ajax unit (Sim.site Sim.pages_text) "a=1" (web_query Sim.q0) s
       = (inl (TypeError "'>=' not supported between instances"), s') /\
     ajax_pages (trace s') = [0%nat]).
Proof.
  intros s.
  pose proof (fun pages resp0 =>
                web_pagination unit (Sim.site pages) "a=1" (web_query Sim.q0) s
                  (sent unit (GetPage "a=1" false SearchPage) tt
                     (sent unit (GetPage "a=1" false SiteRoot) tt s))
                  ("form-1", "tk1") resp0 tt eq_refl) as H.
  split; [| split].
  - destruct (H Sim.pages_25
                (Sim.answer 200 (Some (Sim.results (JInt 25) Sim.ten_items)))
                eq_refl eq_refl)
      as (_ & log & a' & s' & Hrun & _).
    exists s'. rewrite Hrun. clear H.
    vm_compute in Hrun. injection Hrun as Hc Hi Ht Hs.
    split; [| rewrite <- Hs; reflexivity].
    do 2 f_equal. unfold web_result.
    f_equal; symmetry; [exact Hc | exact Hi | f_equal; exact Ht].
  - destruct (H Sim.pages_more
                (Sim.answer 200 (Some (Sim.results (JInt 25) Sim.ten_items)))
                eq_refl eq_refl)
      as (_ & log & a' & s' & Hrun & _).
    exists s'. rewrite Hrun. clear H.
    vm_compute in Hrun. injection Hrun as Hc Hi Ht Hs.
    split; [| rewrite <- Hs; reflexivity].
    do 2 f_equal. unfold web_result.
    f_equal; symmetry; [exact Hc | exact Hi | f_equal; exact Ht].
  - destruct (H Sim.pages_text
                (Sim.answer 200 (Some (Sim.results (JStr "25") Sim.ten_items)))
                eq_refl eq_refl)
      as (_ & Hrun).
    eexists. split; [exact Hrun | reflexivity].
Defined.



(** An item that follows an element that is no object is lost with the
    rest of its page: item 2 is served on every page here, and has no
    entry. *)
Example item_after_malformed_element :
  let out := fetch_web_ajax unit (Sim.site Sim.pages_malformed) "a=1"
               (web_query Sim.q0) (Sim.start Ex.empty_store) in
  fst out = inr {| count := 1; items := [Sim.item 1];
                   source := "tenup_web"; total_api := Some (JInt 3) |} /\
  ajax_pages (trace (snd out)) = [0; 1]%nat /\
  served (Some (Sim.results (JInt 3) [Sim.item 1; JStr "oops"; Sim.item 2]))
    = None.
Proof. vm_compute. repeat split; reflexivity. Qed.

(** Page 0 answers 200 with a body that is not JSON: the search
    succeeds with nothing, stores that in the cache, and asks for no
    further page. *)
Lemma page0_without_results_witness :
  let s := Sim.start (Sim.store_with_cookie "a=1") in
  exists c' s',
    search_tenup unit (Sim.site Sim.pages_garbage) Sim.browser 0 Sim.q0 (∅, s)
      = (inr empty_web_result, (c', s')) /\
    c' !! cache_key Sim.q0 = Some (empty_web_result, (0 + CACHE_TTL)%Q) /\
    ajax_pages (trace s') = [0%nat].
Proof.
  intros s.
  destruct (page0_without_results unit (Sim.site Sim.pages_garbage) Sim.browser
              "a=1" Sim.q0 s
              (sent unit (GetPage "a=1" false SearchPage) tt
                 (sent unit (GetPage "a=1" false SiteRoot) tt s))
              ("form-1", "tk1") (Sim.answer 200 None) tt eq_refl eq_refl)
    as [Hok _].
  destruct (Hok eq_refl I) as [_ Hsearch].
  destruct (Hsearch 0%Q ∅ eq_refl eq_refl ltac:(discriminate) eq_refl)
    as (c' & Hrun & Hc).
  exists c'. eexists. split; [exact Hrun |]. split; [exact Hc | reflexivity].
Defined.

(** *** Where the code departs from its description *)

(** C2, at the failing input.  The search page redirects to the queuing
    host spelt in capitals and the page then fetched reports that host
    in its URL: the search fails with status 500 and the headless
    browser was never launched. *)
Theorem queue_page_not_refreshed :
  let r := search_tenup unit Sim.queue_page_site Sim.browser 0 Sim.q0
             (∅, Sim.start (Sim.store_with_cookie "stale=1")) in
  fst r = inl (HTTPException 500
    "Internal Server Error: 500: TenUp web error: Queue-it page detected; cookies invalid or expired.") /\
  trace (snd (snd r)) =
    [GetPage "stale=1" false SiteRoot; GetPage "stale=1" false SearchPage;
     GetPage "stale=1" false (UrlJoin "https://fft.QUEUE-IT.NET/?c=fft")] /\
  List.filter is_browser (trace (snd (snd r))) = [].
Proof. vm_compute. repeat split; reflexivity. Qed.

(** The other queuing failure, for comparison: a redirect whose Location
    names the queuing host launches the browser once, and the fetch is
    retried once with the fresh cookies. *)
Example queue_redirect_refreshed_once :
  let r := search_tenup unit Sim.queue_redirect_site Sim.browser 0 Sim.q0
             (∅, Sim.start (Sim.store_with_cookie "stale=1")) in
  fst r = inr empty_web_result /\
  length (List.filter is_browser (trace (snd (snd r)))) = 1%nat /\
  ajax_pages (trace (snd (snd r))) = [0%nat] /\
  COOKIE_PATH_ALT (files (snd (snd r))) = Holds "fresh=1".
Proof. vm_compute. repeat split; reflexivity. Qed.

(** C3, at the failing input.  No token, no cookie, and no browser to
    launch: [_perform_search] raises status 502, and [search_tenup]
    hands the client status 500 with the 502 quoted in its detail. *)
Theorem exhaustion_surfaces_500 :
  let s := Sim.start Sim.store_vercel in
  let detail := "API mobile indisponible et cookies headless échoués: Playwright not supported on Vercel. Please set 'TENUP_COOKIE' env var." in
  fst (_perform_search unit (Sim.site Sim.pages_25) Sim.browser Sim.q0 s)
    = inl (HTTPException 502 detail) /\
  fst (search_tenup unit (Sim.site Sim.pages_25) Sim.browser 0 Sim.q0 (∅, s))
    = inl (HTTPException 500 ("Internal Server Error: 502: " +:+ detail)).
Proof. vm_compute. split; reflexivity. Qed.

(** C9, at the failing input.  The search page carries the confirmation
    step as a browser receives it: the pattern finds nothing in it, the
    same page is asked for five times, no request has the [cookietest]
    cookie set, and the negotiation fails. *)
Theorem confirmation_step_not_followed :
  let r := get_form_state unit Sim.confirm_site "a=1" (Sim.start Ex.empty_store) in
  PyStr.contains "decodeURIComponent" Sim.confirm_html = true /\
  PyStr.contains "cookietest" Sim.confirm_html = true /\
  Re.search_decode_redirect Sim.confirm_html = None /\
  fst r = inl (RuntimeError ("TenUp inaccessible. Snippet: " +:+ Sim.confirm_html)) /\
  trace (snd r) =
    GetPage "a=1" false SiteRoot :: repeat (GetPage "a=1" false SearchPage) 5.
Proof. vm_compute. repeat split; reflexivity. Qed.

(** *** Further instances *)

(** Two searches that differ in level and locality and share their
    cache key, because the separator of the key may occur in a field: a
    live entry stored for the first answers the second. *)
Theorem cache_key_collision :
  let q1 := Ex.query_for "a|q:b" "c" in
  let q2 := Ex.query_for "a" "b|q:c" in
  level q1 <> level q2 /\ q q1 <> q q2 /\
  cache_key q1 = cache_key q2 /\
  forall (W : Type) send browse now (c : cache_t) (s : state W) data expiry,
    c !! cache_key q1 = Some (data, expiry) -> (now < expiry)%Q ->
    search_tenup W send browse now q2 (c, s) = (inr data, (c, s)).
Proof.
  intros q1 q2. split; [discriminate |]. split; [discriminate |].
  assert (Hkey : cache_key q1 = cache_key q2) by (vm_compute; reflexivity).
  split; [exact Hkey |].
  intros W send browse now c s data expiry Hc Hlt.
  apply search_tenup_hit. apply cache_get_live with expiry; [| exact Hlt].
  by rewrite <- Hkey.
Qed.

Lemma search_failure_surface_witness :
  exists e0 s',
    _perform_search unit (Sim.site Sim.pages_25) Sim.browser Sim.q0
      (Sim.start Sim.store_vercel) = (inl e0, s') /\
    fst (search_tenup unit (Sim.site Sim.pages_25) Sim.browser 0 Sim.q0
           (∅, Sim.start Sim.store_vercel))
      = inl (HTTPException 500 ("Internal Server Error: " +:+ str_exn e0)).
Proof.
  destruct (search_tenup unit (Sim.site Sim.pages_25) Sim.browser 0 Sim.q0
              (∅, Sim.start Sim.store_vercel)) as [[e | r] [c' s']] eqn:E.
  - destruct (search_failure_surface _ _ _ _ _ _ _ _ _ _ E) as (e0 & Hrun & -> & _).
    exists e0, s'. split; [exact Hrun | reflexivity].
  - vm_compute in E. discriminate E.
Defined.

Lemma cache_hit_is_silent_witness :
  search_tenup unit Sim.mobile_site Sim.browser (10 # 1) Sim.q0
    (cache_put 0 (cache_key Sim.q0) Ex.some_result ∅, Sim.start Ex.empty_store)
  = (inr Ex.some_result,
     (cache_put 0 (cache_key Sim.q0) Ex.some_result ∅, Sim.start Ex.empty_store)).
Proof.
  apply (cache_hit_is_silent unit Sim.mobile_site Sim.browser (10 # 1) Sim.q0
           _ _ Ex.some_result (0 + CACHE_TTL)%Q).
  - apply lookup_insert_eq.
  - reflexivity.
Defined.



Lemma normalize_dates_settles_witness :
  normalize_dates (JList [Ex.dated_item])
  = inr [JDict [("id", JInt 7); ("startDate", JStr "2026-02-01");
                ("dateDebut", JDict [("date", JStr "2026-02-01")])]] /\
  normalize_dates
    (JList [JDict [("id", JInt 7); ("startDate", JStr "2026-02-01");
                   ("dateDebut", JDict [("date", JStr "2026-02-01")])]])
  = inr [JDict [("id", JInt 7); ("startDate", JStr "2026-02-01");
                ("dateDebut", JDict [("date", JStr "2026-02-01")])]].
Proof.
  split; [reflexivity |].
  apply (normalize_dates_settles (JList [Ex.dated_item]) [Ex.dated_item]);
    reflexivity.
Defined.


Lemma perform_search_call_budget_witness :
  exists tr,
    trace (snd (_perform_search unit Sim.queue_redirect_site Sim.browser Sim.q0
                  (Sim.start (Sim.store_with_cookie "stale=1")))) = [] ++ tr /\
    (length tr <= 36)%nat /\
    (length (List.filter is_mobile tr) <= 3)%nat /\
    (length (List.filter is_get tr) <= 12)%nat /\
    (length (List.filter is_ajax tr) <= 20)%nat /\
    (length (List.filter is_browser tr) <= 1)%nat.
Proof.
  apply (perform_search_call_budget unit Sim.queue_redirect_site Sim.browser Sim.q0
           (Sim.start (Sim.store_with_cookie "stale=1"))
           (fst (_perform_search unit Sim.queue_redirect_site Sim.browser Sim.q0
                   (Sim.start (Sim.store_with_cookie "stale=1"))))).
  apply surjective_pairing.
Defined.


(** a bundle without refresh token, rejected with 401: the search goes
    to the last resort without asking for a new token *)
Lemma mobile_failure_without_refresh_witness :
  let s := Sim.start (Sim.store_with_token (JDict [("access_token", JStr "old")])) in
  exists s1,
    _perform_search unit Sim.mobile_site Sim.no_browser Sim.q0 s
      = after_mobile unit Sim.mobile_site Sim.no_browser None Sim.q0 s1 /\
    trace s1 = [GetMobile (JStr "old") Sim.q0].
Proof.
  intros s. eexists.
  pose proof (mobile_failure_without_refresh unit Sim.mobile_site Sim.no_browser
                Sim.q0 s _ (JStr "old") JNull _ eq_refl eq_refl eq_refl eq_refl
                eq_refl (or_intror eq_refl)) as (Hrun & Htr & _).
  split; [exact Hrun | exact Htr].
Defined.

Lemma web_failures_are_wrapped_witness :
  exists cause,
    fst (after_mobile unit (Sim.site Sim.pages_25) Sim.browser None Sim.q0
           (Sim.start Sim.store_vercel))
    = inl (HTTPException 502
             ("API mobile indisponible et cookies headless échoués: " +:+ cause)).
Proof.
  destruct (after_mobile unit (Sim.site Sim.pages_25) Sim.browser None Sim.q0
              (Sim.start Sim.store_vercel)) as [[e | r] s'] eqn:E.
  - destruct (web_failures_are_wrapped _ _ _ _ _ _ _ _ E) as [cause ->].
    by exists cause.
  - vm_compute in E. discriminate E.
Defined.


Lemma headless_refresh_outcome_witness :
  exists s',
    fetch_cookie_header_via_playwright unit Sim.browser (Sim.start Ex.empty_store)
      = (inr "fresh=1", s') /\
    trace s' = [LaunchBrowser] /\
    load_cookie_header (files s') = Some "fresh=1".
Proof.
  destruct (fetch_cookie_header_via_playwright unit Sim.browser
              (Sim.start Ex.empty_store)) as [r s'] eqn:E.
  assert (Hr : r = inr "fresh=1") by (vm_compute in E; congruence).
  subst r. exists s'. split; [reflexivity |].
  destruct (proj2 (headless_refresh_outcome unit Sim.browser _ _ _ E)
              "fresh=1" eq_refl)
    as (_ & Htr & _ & _ & _ & _ & Hload).
  split; [exact Htr |]. apply Hload; [by left | reflexivity].
Defined.
